(** * Session document index synchronizer of [main.py]

    A shallow embedding of the Streamlit script [src/main.py]: the session
    state it keeps between reruns, the upload and removal loops, the rebuild
    of the vector store and of the agent, and the parse-error handler the
    agents are created with.

    The script is effectful Python: it mutates [st.session_state], writes and
    deletes files of a temporary directory, and calls the embedding service
    and the LLM.  It is embedded in a state-and-exception monad over a
    [World]; an exception leaves the script at the statement that raised and
    keeps every mutation made before it, as a Streamlit rerun does. *)

From stdpp Require Import gmap strings list fin_maps.
From Stdlib.Strings Require Import Ascii Byte.

Set Default Proof Using "Type".


(** ** Values *)

#[global] Instance byte_eq_decision : EqDecision byte := byte_eq_dec.

(** [streamlit]'s [UploadedFile]: the script reads [file.name] and
    [file.getvalue()], and compares files with [in] and [list.remove].
    Python's [==] on uploaded files compares their [file_id], which names
    one upload with its name and bytes: equality of the record. *)
Record UploadedFile := mkUploadedFile {
  file_id : string;
  name : string;
  getvalue : list byte;
}.

#[global] Instance UploadedFile_eq_dec : EqDecision UploadedFile.
Proof. solve_decision. Defined.

(** A [langchain] document: a text segment tagged with its source. *)
Record Document := mkDocument {
  page_content : string;
  source : string;
}.

#[global] Instance Document_eq_dec : EqDecision Document.
Proof. solve_decision. Defined.

(** An entry of the displayed transcript, [{"role": ..., "content": ...}]. *)
Record Message := mkMessage {
  role : string;
  content : string;
}.

(** The error object handed to [handle_parsing_errors]; [str error] is
    Python's [str(error)]. *)
Record OutputParserException := mkParseError {
  str : string;
}.

Inductive Exception : Type :=
  | LoadError (path : string)
  | FileNotFoundError (path : string)
  | ValueError
  | IndexError
  | EmbeddingError
  | AgentError.

(** What a statement does: it returns a value or raises. *)
Inductive Outcome (A : Type) : Type :=
  | Returned (a : A)
  | Raised (e : Exception).
Arguments Returned {A} a.
Arguments Raised {A} e.

(** A call that leaves the process: the billed ones. *)
Inductive Call : Type :=
  | EmbedDocuments (texts : list Document)
  | LLMCall (prompt : string).

(** ** Pure helpers of the script *)

(** Python's [s[:n]] on a string. *)
Definition py_slice_to (n : nat) (s : string) : string := String.substring 0 n s.

(** [s.split(".")[0]]: the text before the first dot, all of [s] without one. *)
Fixpoint split_dot_0 (s : string) : string :=
  match s with
  | EmptyString => EmptyString
  | String c s' => if decide (c = "."%char) then EmptyString else String c (split_dot_0 s')
  end.

(** [", ".join(parts)]. *)
Definition py_join (sep : string) (parts : list string) : string := String.concat sep parts.

(** [lst.remove(x)]: drops the first element equal to [x]; [None] stands for
    the [ValueError] Python raises when there is none. *)
Fixpoint list_remove `{EqDecision A} (x : A) (lst : list A) : option (list A) :=
  match lst with
  | [] => None
  | y :: lst' =>
      if decide (x = y) then Some lst'
      else cons y <$> list_remove x lst'
  end.

(** [res.split(" ")]: the pieces between single spaces; next to a space,
    or of the empty string, a piece is empty, and there is always one. *)
Fixpoint split_space (res : string) : list string :=
  match res with
  | EmptyString => [EmptyString]
  | String c res' =>
      if decide (c = " "%char) then EmptyString :: split_space res'
      else
        match split_space res' with
        | word :: words => String c word :: words
        | [] => [String c EmptyString]
        end
  end.

(** Lines 224-228, the generator [stream_response] as the list of what it
    yields: [word + " "] for each word ([time.sleep] paces the stream and
    yields nothing). *)
Definition stream_response (res : string) : list string :=
  (λ word, word +:+ " ") <$> split_space res.

(** [st.write_stream(stream)] on a stream of text: the full response, the
    pieces put together. *)
Definition write_stream (stream : list string) : string :=
  foldr String.app EmptyString stream.

(** The handler every agent is created with: [lambda error: str(error)[:50]]. *)
Definition handle_parsing_errors_lambda (error : OutputParserException) : string :=
  py_slice_to 50 (str error).

(** ** A small session for the examples

    Three text files, a second file named [a.txt], an empty file and a file
    the parser rejects; a parser that gives one document per file, the
    file's text, and raises on a leading zero byte; a splitter that keeps
    the documents with text; an index builder that raises on no chunks, and
    one whose embedding service is down. *)
Module Sample.

Definition dir : string := "/tmp/upload".

Definition a_txt : UploadedFile := mkUploadedFile "1" "a.txt" [x61].
Definition b_txt : UploadedFile := mkUploadedFile "2" "b.txt" [x62].
Definition c_txt : UploadedFile := mkUploadedFile "3" "c.txt" [x63].
Definition empty_txt : UploadedFile := mkUploadedFile "5" "empty.txt" [].
Definition corrupt_pdf : UploadedFile := mkUploadedFile "6" "corrupt.pdf" [x00; x25].

Definition parse (path : string) (data : list byte) : Outcome (list Document) :=
  match data with
  | x00 :: _ => Raised (LoadError path)
  | _ => Returned [mkDocument (String.string_of_list_byte data) path]
  end.

Definition split (chunk_size chunk_overlap : nat) (docs : list Document)
    : list Document :=
  filter (λ d, page_content d ≠ "") docs.

Definition index (chunks : list Document) : Outcome (list Document) :=
  match chunks with
  | [] => Raised IndexError
  | _ => Returned chunks
  end.

Definition index_down (chunks : list Document) : Outcome (list Document) :=
  Raised EmbeddingError.

Definition long_error : OutputParserException :=
  mkParseError "Could not parse LLM output: `I do not know what to do with that`".

(** The steps of an executor run in the manner of [langchain]'s.  Every
    step calls the LLM with the observations so far.  An output that parses
    ends the turn.  For one that does not, the handler's text goes back to
    the LLM as an observation and the turn goes on; after [max_iterations]
    steps the turn ends with a fixed text.  The result is the turn's output
    and the number of LLM calls. *)
Inductive Step : Type :=
  | Finish (output : string)
  | Unparsed (error : OutputParserException).

Fixpoint steps (handler : OutputParserException → string)
    (llm : list string → Step) (max_iterations : nat)
    (observations : list string) : string * nat :=
  match max_iterations with
  | 0 => ("Agent stopped due to iteration limit or time limit.", 0)
  | S n =>
      match llm observations with
      | Finish output => (output, 1)
      | Unparsed error =>
          let r := steps handler llm n (observations ++ [handler error]) in
          (r.1, S r.2)
      end
  end.

(** Three LLMs: one that answers at once, one whose output never parses,
    and one whose output parses at the second step and quotes the
    observation it was given. *)
Definition replies (prompt : string) (observations : list string) : Step :=
  Finish ("You said " +:+ prompt).

Definition never_parses (prompt : string) (observations : list string) : Step :=
  Unparsed long_error.

Definition parses_second (prompt : string) (observations : list string) : Step :=
  match observations with
  | [] => Unparsed long_error
  | observation :: _ => Finish ("After: " +:+ observation)
  end.

End Sample.

Section Synchronizer.

(** ** External collaborators

    [upload_tmp_dir] is the cached temporary directory; [VectorStore] the
    FAISS index type with its builder [from_documents] (it embeds every
    chunk, and raises when the embedding service does); [split_documents] is
    [RecursiveCharacterTextSplitter(chunk_size, chunk_overlap).split_documents];
    [parse_file] is the per-format parser behind [DocumentLoader.load];
    [executor], declared below, is the run of [langchain]'s
    [AgentExecutor]. *)
Context {VectorStore : Type}.
Variable upload_tmp_dir : string.
Variable parse_file : string → list byte → Outcome (list Document).
Variable split_documents : nat → nat → list Document → list Document.
Variable from_documents : list Document → Outcome VectorStore.

(** The tool [create_retriever_tool] returns. *)
Record Tool := mkTool {
  retriever : VectorStore;
  tool_name : string;
  description : string;
}.

(** The [AgentExecutor] built by [from_agent_and_tools]: its tools and its
    parse-error handler.  Its memory is the one shared
    [ConversationBufferWindowMemory], kept in the world. *)
Record AgentExecutor := mkAgent {
  tools : list Tool;
  handle_parsing_errors : OutputParserException → string;
}.

(** One run of [langchain]'s [AgentExecutor], which is not part of the
    repository: the steps of the LLM, the tools it runs and what it does
    with an output that does not parse are its own.  It is given the
    executor the script built (its tools and its handler), the conversation
    memory and the prompt; it gives the turn's output or raises, the memory
    as it leaves it, and the calls it made, latest first. *)
Variable executor :
  AgentExecutor → list Message → string →
  Outcome string * list Message * list Call.

(** Modelled from the spec: the class [DocumentLoader] of
    [utils/langchain_loaders.py], which is not among the sources.  The spec
    gives it as a mapping from source path to the ordered segments of that
    file, with [add(path)] failing on unsupported or corrupt content,
    [remove(path)] a no-op on an unknown path, [allSegments()] and
    [documentCount()]. *)
Abbreviation DocumentLoader := (gmap string (list Document)).

(** ** The world the script runs in

    The first five fields are the keys of [st.session_state] the script
    owns; [langchain_messages] is the key [StreamlitChatMessageHistory]
    keeps the conversation memory under; [tmp_files] is the content of the
    temporary directory; [calls] logs the calls to the embedding service and
    to the LLM, latest first. *)
Record World := mkWorld {
  files : list UploadedFile;
  loader : DocumentLoader;
  on_change : bool;
  messages : list Message;
  agent : AgentExecutor;
  langchain_messages : list Message;
  tmp_files : gmap string (list byte);
  calls : list Call;
}.

Definition set_files (v : list UploadedFile) (w : World) : World :=
  mkWorld v (loader w) (on_change w) (messages w) (agent w)
          (langchain_messages w) (tmp_files w) (calls w).
Definition set_loader (v : DocumentLoader) (w : World) : World :=
  mkWorld (files w) v (on_change w) (messages w) (agent w)
          (langchain_messages w) (tmp_files w) (calls w).
Definition set_on_change (v : bool) (w : World) : World :=
  mkWorld (files w) (loader w) v (messages w) (agent w)
          (langchain_messages w) (tmp_files w) (calls w).
Definition set_messages (v : list Message) (w : World) : World :=
  mkWorld (files w) (loader w) (on_change w) v (agent w)
          (langchain_messages w) (tmp_files w) (calls w).
Definition set_agent (v : AgentExecutor) (w : World) : World :=
  mkWorld (files w) (loader w) (on_change w) (messages w) v
          (langchain_messages w) (tmp_files w) (calls w).
Definition set_langchain_messages (v : list Message) (w : World) : World :=
  mkWorld (files w) (loader w) (on_change w) (messages w) (agent w)
          v (tmp_files w) (calls w).
Definition set_tmp_files (v : gmap string (list byte)) (w : World) : World :=
  mkWorld (files w) (loader w) (on_change w) (messages w) (agent w)
          (langchain_messages w) v (calls w).
Definition set_calls (v : list Call) (w : World) : World :=
  mkWorld (files w) (loader w) (on_change w) (messages w) (agent w)
          (langchain_messages w) (tmp_files w) v.

(** ** The script monad *)

Definition Script (A : Type) : Type := World → Outcome A * World.

#[local] Instance script_ret : MRet Script := λ A a w, (Returned a, w).
#[local] Instance script_bind : MBind Script := λ A B f m w,
  match m w with
  | (Returned a, w') => f a w'
  | (Raised e, w') => (Raised e, w')
  end.

Definition raise {A} (e : Exception) : Script A := λ w, (Raised e, w).
Definition get_world : Script World := λ w, (Returned w, w).
Definition modify (f : World → World) : Script unit := λ w, (Returned tt, f w).
Definition lift {A} (o : Outcome A) : Script A := λ w, (o, w).
Definition call (c : Call) : Script unit := modify (λ w, set_calls (c :: calls w) w).

(** ** The loader's operations on the session's loader *)

(** Modelled from the spec: [DocumentLoader.load], called as
    [st.session_state.loader.load(path)].  It reads the staged file and
    parses it; it fails on unsupported or corrupt content, and stores the
    segments under the path only when the parse succeeds. *)
Definition loader_load (path : string) : Script unit :=
  w ← get_world;
  match tmp_files w !! path with
  | None => raise (FileNotFoundError path)
  | Some data =>
      docs ← lift (parse_file path data);
      modify (λ w, set_loader (<[path := docs]> (loader w)) w)
  end.

(** Modelled from the spec: [DocumentLoader.remove], called as
    [st.session_state.loader.remove(path)]; a no-op on an unknown path. *)
Definition loader_remove (path : string) : Script unit :=
  modify (λ w, set_loader (delete path (loader w)) w).

(** Modelled from the spec: [DocumentLoader.size], the spec's
    [documentCount()]: the number of stored source paths. *)
Definition loader_size (l : DocumentLoader) : nat := size l.

(** Modelled from the spec: [DocumentLoader.documents], the spec's
    [allSegments()]: the segments of every stored path. *)
Definition loader_documents (l : DocumentLoader) : list Document :=
  concat (snd <$> map_to_list l).

(** ** The script, block by block *)

(** [upload_tmp_dir() / file.name] *)
Definition temp_filepath (file : UploadedFile) : string :=
  upload_tmp_dir +:+ "/" +:+ name file.

(** [with temp_filepath.open("wb") as f: f.write(data)] *)
Definition write_bytes (path : string) (data : list byte) : Script unit :=
  modify (λ w, set_tmp_files (<[path := data]> (tmp_files w)) w).

(** [temp_filepath.unlink()] *)
Definition unlink (path : string) : Script unit :=
  w ← get_world;
  match tmp_files w !! path with
  | None => raise (FileNotFoundError path)
  | Some _ => modify (λ w, set_tmp_files (delete path (tmp_files w)) w)
  end.

(** [st.session_state.files.remove(file)] *)
Definition files_remove (file : UploadedFile) : Script unit :=
  w ← get_world;
  match list_remove file (files w) with
  | None => raise ValueError
  | Some fs => modify (set_files fs)
  end.

(** The agent the script creates at its three sites (lines 130, 203, 213):
    only the tool list differs. *)
Definition from_agent_and_tools (ts : list Tool) : AgentExecutor :=
  mkAgent ts handle_parsing_errors_lambda.

(** Lines 116-118: [if clear_history: st.session_state.messages = []]. *)
Definition handle_clear_history (clear_history : bool) : Script unit :=
  if clear_history then modify (set_messages []) else mret tt.

(** Lines 120-135: the session state of a first run. *)
Definition initial_world : World :=
  {| files := [];
     loader := ∅;
     on_change := false;
     messages := [];
     agent := from_agent_and_tools [];
     langchain_messages := [];
     tmp_files := ∅;
     calls := [] |}.

(** Lines 143-159: the body of the upload loop, and the loop. *)
Definition upload_file (file : UploadedFile) : Script unit :=
  w ← get_world;
  if decide (file ∈ files w) then mret tt
  else
    modify (λ w, set_files (files w ++ [file]) w);;
    write_bytes (temp_filepath file) (getvalue file);;
    loader_load (temp_filepath file);;
    modify (set_on_change true).

Fixpoint handle_uploads (uploaded_files : list UploadedFile) : Script unit :=
  match uploaded_files with
  | [] => mret tt
  | file :: rest => upload_file file;; handle_uploads rest
  end.

(** Lines 162-177: the body of the removal loop. *)
Definition remove_file (uploaded_files : list UploadedFile) (file : UploadedFile)
    : Script unit :=
  if decide (file ∈ uploaded_files) then mret tt
  else
    loader_remove (temp_filepath file);;
    unlink (temp_filepath file);;
    files_remove file;;
    modify (set_on_change true).

(** [for file in st.session_state.files:] iterates by index over the list
    object itself, which the body shrinks: the iterator reads position [i] of
    the current list and stops when [i] is past its end.  [fuel] bounds the
    number of iterations. *)
Fixpoint removal_loop (fuel : nat) (uploaded_files : list UploadedFile) (i : nat)
    : Script unit :=
  match fuel with
  | 0 => mret tt
  | S fuel' =>
      w ← get_world;
      match files w !! i with
      | None => mret tt
      | Some file =>
          remove_file uploaded_files file;;
          removal_loop fuel' uploaded_files (S i)
      end
  end.

Definition handle_removals (uploaded_files : list UploadedFile) : Script unit :=
  w ← get_world;
  removal_loop (length (files w)) uploaded_files 0.

(** One reconcile cycle: the upload loop followed by the removal loop. *)
Definition reconcile (uploaded_files : list UploadedFile) : Script unit :=
  handle_uploads uploaded_files;; handle_removals uploaded_files.

(** [FAISS.from_documents(documents, embeddings)]: one call to the embedding
    service for the chunks. *)
Definition faiss_from_documents (documents : list Document) : Script VectorStore :=
  call (EmbedDocuments documents);;
  lift (from_documents documents).

(** Lines 193-200. *)
Definition create_vector_tool (uploaded_files : list UploadedFile) (vector : VectorStore)
    : Tool :=
  let FILENAME_STR := py_join ", " ((λ file, split_dot_0 (name file)) <$> uploaded_files) in
  {| retriever := vector;
     tool_name := "vector-tool";
     description := "Useful for searching information about " +:+ FILENAME_STR |}.

(** Lines 180-220: the rebuild block. *)
Definition rebuild (uploaded_files : list UploadedFile) : Script unit :=
  w ← get_world;
  if on_change w then
    (if decide (0 < loader_size (loader w)) then
       let documents := split_documents 1500 200 (loader_documents (loader w)) in
       vector ← faiss_from_documents documents;
       let vector_tool := create_vector_tool uploaded_files vector in
       modify (set_agent (from_agent_and_tools [vector_tool]))
     else
       modify (set_agent (from_agent_and_tools [])));;
    modify (set_on_change false)
  else mret tt.

(** Lines 143-220 of one run of the script. *)
Definition synchronize (uploaded_files : list UploadedFile) : Script unit :=
  reconcile uploaded_files;; rebuild uploaded_files.

(** [st.session_state.agent.invoke(prompt)]: a run of the executor on the
    session's memory; the memory it leaves and the calls it made are kept
    whether it returns or raises. *)
Definition invoke (a : AgentExecutor) (prompt : string) : Script string :=
  λ w,
    let '(output, memory, made) := executor a (langchain_messages w) prompt in
    (output, set_calls (made ++ calls w) (set_langchain_messages memory w)).

(** Lines 235-246: the chat turn.  [st.chat_input] gives [None] until the
    user submits, and the walrus test is false for an empty string too.  The
    user's message is appended before the agent is invoked, the reply after
    its stream was written. *)
Definition handle_user_input (chat_input : option string) : Script unit :=
  match chat_input with
  | None => mret tt
  | Some EmptyString => mret tt
  | Some prompt =>
      modify (λ w, set_messages (messages w ++ [mkMessage "user" prompt]) w);;
      w ← get_world;
      output ← invoke (agent w) prompt;
      let stream_res := stream_response output in
      let response := write_stream stream_res in
      modify (λ w, set_messages (messages w ++ [mkMessage "assistant" response]) w)
  end.

(** One run of the script past the API-key check: lines 116-118, 143-220
    and 235-246 (the display of the transcript changes nothing). *)
Definition script_run (clear_history : bool) (uploaded_files : list UploadedFile)
    (chat_input : option string) : Script unit :=
  handle_clear_history clear_history;;
  synchronize uploaded_files;;
  handle_user_input chat_input.

(** ** Predicates the statements use *)

(** What a reconcile cycle has no business with: the call log, the agent,
    the transcript and the conversation memory. *)
Definition outside_reconcile (w w' : World) : Prop :=
  calls w' = calls w ∧ agent w' = agent w ∧
  messages w' = messages w ∧ langchain_messages w' = langchain_messages w.

(** A step that, when it returns, either did nothing or set the flag, and
    that never clears the flag. *)
Definition nothing_or_flag (w w' : World) (o : Outcome ()) : Prop :=
  (on_change w = true → on_change w' = true) ∧
  (o = Returned () → w' = w ∨ on_change w' = true).

(** A step that drops no reported file and adds none. *)
Definition only_drops_unreported (uploaded_files : list UploadedFile)
    (w w' : World) : Prop :=
  (∀ f, f ∈ files w → f ∈ uploaded_files → f ∈ files w') ∧
  (∀ f, f ∈ files w' → f ∈ files w).

(** Every tracked file's staged bytes are its own. *)
Definition staged_bytes (w : World) : Prop :=
  ∀ f, f ∈ files w → tmp_files w !! temp_filepath f = Some (getvalue f).


(** An agent the script stores in [st.session_state.agent]: the one of the
    first run, or the one a dirty rebuild that ran to its end stored. *)
Inductive published : AgentExecutor → Prop :=
  | published_initial : published (agent initial_world)
  | published_rebuild uploaded_files w w' :
      on_change w = true →
      rebuild uploaded_files w = (Returned (), w') →
      published (agent w').

(** Files with the same name are the same file. *)
Definition names_agree (fs : list UploadedFile) : Prop :=
  ∀ f g, f ∈ fs → g ∈ fs → name f = name g → f = g.

(** The staged paths of the tracked files. *)
Definition tracked_paths (w : World) : gset string :=
  list_to_set (temp_filepath <$> files w).

(** The tracked files are distinct and the loader stores exactly them,
    each with the documents parsed from its own bytes. *)
Definition in_sync (w : World) : Prop :=
  NoDup (files w) ∧
  dom (loader w) = tracked_paths w ∧
  ∀ f, f ∈ files w →
    ∃ docs, loader w !! temp_filepath f = Some docs ∧
            parse_file (temp_filepath f) (getvalue f) = Returned docs.

(** Every tracked file has its bytes in the temporary directory. *)
Definition staged (w : World) : Prop :=
  ∀ f, f ∈ files w → is_Some (tmp_files w !! temp_filepath f).

(** What the removal loop leaves of a list it walks from the front: a file
    the report still has is kept; a file it lacks is removed, and the file
    after it, now at the position just visited, is kept unseen. *)
Fixpoint removal_survivors (uploaded_files fs : list UploadedFile)
    : list UploadedFile :=
  match fs with
  | [] => []
  | f :: rest =>
      if decide (f ∈ uploaded_files) then f :: removal_survivors uploaded_files rest
      else
        match rest with
        | [] => []
        | g :: rest' => g :: removal_survivors uploaded_files rest'
        end
  end.

(** No file the report lacks is directly followed by another one it lacks. *)
Definition isolated_removals (uploaded_files fs : list UploadedFile) : Prop :=
  ∀ i f g, fs !! i = Some f → fs !! S i = Some g →
    f ∉ uploaded_files → g ∈ uploaded_files.

(** The result of a block with the transcript replaced. *)
Definition with_messages {A} (ms : list Message) (r : Outcome A * World)
    : Outcome A * World :=
  (r.1, set_messages ms r.2).

(** The invariant of both loops for the staged bytes, relative to the
    files in play. *)
Definition bytes_inv (universe : list UploadedFile) (w : World) : Prop :=
  NoDup (files w) ∧ staged_bytes w ∧ files w ⊆ universe.

(** The worlds a session goes through when every reconcile cycle runs to
    its end and no two files in play share a name; the rebuild after it may
    fail. *)
Inductive reachable : World → Prop :=
  | reachable_initial : reachable initial_world
  | reachable_rerun uploaded_files w w1 o w2 :
      reachable w →
      names_agree (files w ++ uploaded_files) →
      reconcile uploaded_files w = (Returned (), w1) →
      rebuild uploaded_files w1 = (o, w2) →
      reachable w2.

(** ** Each block in closed form *)

Lemma bind_run {A B} (m : Script A) (f : A → Script B) (w : World) :
  (m ≫= f) w =
  match m w with
  | (Returned a, w') => f a w'
  | (Raised e, w') => (Raised e, w')
  end.
Proof. reflexivity. Qed.

(** The solvers read a function type as an implication: the collaborators
    are put out of their sight where the goal does not mention them. *)
Ltac list_solver :=
  try clear executor; try clear from_documents; try clear split_documents;
  try clear parse_file; set_solver.

Ltac run_script :=
  repeat (rewrite bind_run;
          unfold write_bytes, loader_remove, call, lift, modify, raise, get_world,
                 mret, script_ret;
          cbn beta iota).

Lemma upload_file_run (file : UploadedFile) (w : World) :
  upload_file file w =
  if decide (file ∈ files w) then (Returned (), w)
  else
    let staged :=
      set_tmp_files (<[temp_filepath file := getvalue file]> (tmp_files w))
        (set_files (files w ++ [file]) w) in
    match parse_file (temp_filepath file) (getvalue file) with
    | Returned docs =>
        (Returned (),
         set_on_change true
           (set_loader (<[temp_filepath file := docs]> (loader w)) staged))
    | Raised e => (Raised e, staged)
    end.
Proof.
  unfold upload_file. run_script.
  destruct (decide (file ∈ files w)) as [Hin|Hin]; [reflexivity|].
  run_script. unfold loader_load. run_script. cbn.
  rewrite lookup_insert_eq. run_script.
  destruct (parse_file (temp_filepath file) (getvalue file)); reflexivity.
Qed.

Lemma remove_file_run (uploaded_files : list UploadedFile) (file : UploadedFile)
    (w : World) :
  remove_file uploaded_files file w =
  if decide (file ∈ uploaded_files) then (Returned (), w)
  else
    let unloaded := set_loader (delete (temp_filepath file) (loader w)) w in
    match tmp_files w !! temp_filepath file with
    | None => (Raised (FileNotFoundError (temp_filepath file)), unloaded)
    | Some _ =>
        let unlinked :=
          set_tmp_files (delete (temp_filepath file) (tmp_files w)) unloaded in
        match list_remove file (files w) with
        | None => (Raised ValueError, unlinked)
        | Some fs => (Returned (), set_on_change true (set_files fs unlinked))
        end
    end.
Proof.
  unfold remove_file.
  destruct (decide (file ∈ uploaded_files)) as [Hin|Hin]; [reflexivity|].
  run_script. unfold unlink. run_script. cbn.
  destruct (tmp_files w !! temp_filepath file) as [data|]; [|reflexivity].
  run_script. unfold files_remove. run_script. cbn.
  destruct (list_remove file (files w)); reflexivity.
Qed.

Lemma rebuild_run (uploaded_files : list UploadedFile) (w : World) :
  rebuild uploaded_files w =
  if on_change w then
    if decide (0 < loader_size (loader w)) then
      let documents := split_documents 1500 200 (loader_documents (loader w)) in
      let embedded := set_calls (EmbedDocuments documents :: calls w) w in
      match from_documents documents with
      | Returned vector =>
          (Returned (),
           set_on_change false
             (set_agent
                (from_agent_and_tools [create_vector_tool uploaded_files vector])
                embedded))
      | Raised e => (Raised e, embedded)
      end
    else
      (Returned (), set_on_change false (set_agent (from_agent_and_tools []) w))
  else (Returned (), w).
Proof.
  unfold rebuild. run_script.
  destruct (on_change w); [|reflexivity].
  destruct (decide (0 < loader_size (loader w))); [|reflexivity].
  run_script. unfold faiss_from_documents. run_script.
  destruct (from_documents _); reflexivity.
Qed.

(** ** [list.remove] *)

Lemma list_remove_is_Some `{EqDecision A} (x : A) (lst : list A) :
  x ∈ lst → is_Some (list_remove x lst).
Proof.
  induction lst as [|y lst IH]; intros Hin; [by apply elem_of_nil in Hin|].
  cbn. destruct (decide (x = y)) as [->|Hne]; [by eexists|].
  apply elem_of_cons in Hin as [?|Hin]; [done|].
  destruct (IH Hin) as [lst' ->]. by eexists.
Qed.

Lemma list_remove_length `{EqDecision A} (x : A) (lst lst' : list A) :
  list_remove x lst = Some lst' → length lst = S (length lst').
Proof.
  revert lst'. induction lst as [|y lst IH]; intros lst' Hrm; [done|].
  cbn in Hrm. destruct (decide (x = y)) as [->|Hne].
  - by injection Hrm as <-.
  - destruct (list_remove x lst) as [k|] eqn:Hk; [|done].
    injection Hrm as <-. cbn. by rewrite (IH k).
Qed.

Lemma list_remove_NoDup `{EqDecision A} (x : A) (lst lst' : list A) :
  NoDup lst → list_remove x lst = Some lst' →
  NoDup lst' ∧ ∀ y, y ∈ lst' ↔ y ∈ lst ∧ y ≠ x.
Proof.
  revert lst'. induction lst as [|z lst IH]; intros lst' Hnd Hrm; [done|].
  apply NoDup_cons in Hnd as [Hz Hnd]. cbn in Hrm.
  destruct (decide (x = z)) as [->|Hne].
  - injection Hrm as <-. split; [done|]. intros y. rewrite elem_of_cons.
    split; [intros Hy; split; [by right|by intros ->]|by intros [[?|?] ?]].
  - destruct (list_remove x lst) as [k|] eqn:Hk; [|done].
    injection Hrm as <-. destruct (IH k Hnd eq_refl) as [Hndk Hin].
    split.
    + apply NoDup_cons. split; [|done]. rewrite Hin. by intros [? _].
    + intros y. rewrite !elem_of_cons, Hin. split.
      * intros [->|[Hy Hyx]]; (split; [by (left + right)|congruence]).
      * intros [[->|Hy] Hyx]; [by left|by right].
Qed.

(** ** The loops keep the loader and the tracked files together *)

#[local] Instance temp_filepath_name_inj :
  Inj (=) (=) (λ n, upload_tmp_dir +:+ "/" +:+ n).
Proof. intros n1 n2 Heq. by do 2 apply (inj (String.app _)) in Heq. Qed.

Lemma temp_filepath_agree (fs : list UploadedFile) (f g : UploadedFile) :
  names_agree fs → f ∈ fs → g ∈ fs → temp_filepath f = temp_filepath g → f = g.
Proof.
  intros Hagree Hf Hg Hpath. apply Hagree; [done..|].
  by apply temp_filepath_name_inj.
Qed.

(** The invariant of both loops, relative to the files in play. *)
Definition loop_inv (universe : list UploadedFile) (w : World) : Prop :=
  in_sync w ∧ files w ⊆ universe.

Lemma upload_file_inv (universe : list UploadedFile) (file : UploadedFile)
    (w w' : World) :
  names_agree universe → file ∈ universe → loop_inv universe w →
  upload_file file w = (Returned (), w') → loop_inv universe w'.
Proof.
  intros Hagree Hfile [(Hnd & Hdom & Hdocs) Hsub]. rewrite upload_file_run.
  destruct (decide (file ∈ files w)) as [Hin|Hin]; [by intros [= <-]|].
  cbn zeta. destruct (parse_file _ _) as [docs|] eqn:Hparse; [|done].
  intros [= <-]. split; [split; [|split]|]; cbn.
  - apply NoDup_app. split; [done|]. split; [|apply NoDup_singleton].
    intros x Hx ->%list_elem_of_singleton. done.
  - unfold tracked_paths. cbn. rewrite dom_insert_L, Hdom.
    unfold tracked_paths. rewrite fmap_app, list_to_set_app_L. cbn.
    by rewrite (right_id_L ∅ (∪)), (comm_L (∪)).
  - intros f [Hf| ->%list_elem_of_singleton]%elem_of_app.
    + rewrite lookup_insert_ne; [by apply Hdocs|].
      intros Hpath. apply Hin.
      by rewrite (temp_filepath_agree universe file f Hagree Hfile (Hsub f Hf) Hpath).
    + rewrite lookup_insert_eq. by exists docs.
  - intros x [Hx| ->%list_elem_of_singleton]%elem_of_app; [by apply Hsub|done].
Qed.

Lemma handle_uploads_inv (universe uploaded_files : list UploadedFile)
    (w w' : World) :
  names_agree universe → uploaded_files ⊆ universe → loop_inv universe w →
  handle_uploads uploaded_files w = (Returned (), w') → loop_inv universe w'.
Proof.
  intros Hagree. revert w.
  induction uploaded_files as [|file rest IH]; intros w Hsub Hinv.
  - by intros [= <-].
  - cbn. rewrite bind_run.
    destruct (upload_file file w) as [[[]|e] w1] eqn:Hup; [|done].
    apply IH; [list_solver|]. eapply upload_file_inv; [done| |done..]. list_solver.
Qed.

Lemma remove_file_inv (universe uploaded_files : list UploadedFile)
    (file : UploadedFile) (w w' : World) :
  names_agree universe → file ∈ files w → loop_inv universe w →
  remove_file uploaded_files file w = (Returned (), w') → loop_inv universe w'.
Proof.
  intros Hagree Hfile [(Hnd & Hdom & Hdocs) Hsub]. rewrite remove_file_run.
  destruct (decide (file ∈ uploaded_files)); [by intros [= <-]|].
  cbn zeta. destruct (tmp_files w !! _); [|done].
  destruct (list_remove file (files w)) as [fs|] eqn:Hrm; [|done].
  intros [= <-]. destruct (list_remove_NoDup _ _ _ Hnd Hrm) as [Hndfs Hfs].
  split; [split; [|split]|]; cbn; [done| | |].
  - unfold tracked_paths. cbn. rewrite dom_delete_L, Hdom. unfold tracked_paths.
    apply set_eq. intros path.
    rewrite elem_of_difference, !elem_of_list_to_set, !list_elem_of_fmap.
    rewrite elem_of_singleton. split.
    + intros [(g & -> & Hg) Hne]. exists g. split; [done|].
      apply Hfs. split; [done|]. by intros ->.
    + intros (g & -> & [Hg Hne]%Hfs). split; [by exists g|].
      intros Hpath. apply Hne.
      apply (temp_filepath_agree universe); [done|by apply Hsub..|done].
  - intros f [Hf Hne]%Hfs. rewrite lookup_delete_ne; [by apply Hdocs|].
    intros Hpath. apply Hne. symmetry.
    apply (temp_filepath_agree universe); [done|by apply Hsub..|done].
  - intros x [Hx _]%Hfs. by apply Hsub.
Qed.

Lemma removal_loop_inv (universe uploaded_files : list UploadedFile)
    (fuel i : nat) (w w' : World) :
  names_agree universe → loop_inv universe w →
  removal_loop fuel uploaded_files i w = (Returned (), w') →
  loop_inv universe w'.
Proof.
  intros Hagree. revert i w.
  induction fuel as [|fuel IH]; intros i w Hinv; [by intros [= <-]|].
  cbn. rewrite bind_run. unfold get_world.
  destruct (files w !! i) as [file|] eqn:Hi; [|by intros [= <-]].
  rewrite bind_run.
  destruct (remove_file uploaded_files file w) as [[[]|e] w1] eqn:Hrm; [|done].
  apply IH. eapply remove_file_inv; [done| |done..].
  by eapply list_elem_of_lookup_2.
Qed.

Lemma reconcile_inv (uploaded_files : list UploadedFile) (w w' : World) :
  names_agree (files w ++ uploaded_files) → in_sync w →
  reconcile uploaded_files w = (Returned (), w') → in_sync w'.
Proof.
  intros Hagree Hsync. unfold reconcile, handle_removals. rewrite bind_run.
  destruct (handle_uploads uploaded_files w) as [[[]|e] w1] eqn:Hup; [|done].
  rewrite bind_run. unfold get_world. intros Hrm.
  assert (loop_inv (files w ++ uploaded_files) w1) as Hinv1.
  { eapply handle_uploads_inv; [done| |split; [done|]|done]; list_solver. }
  by destruct (removal_loop_inv _ _ _ _ _ _ Hagree Hinv1 Hrm).
Qed.

Lemma rebuild_frame (uploaded_files : list UploadedFile) (w w' : World)
    (o : Outcome ()) :
  rebuild uploaded_files w = (o, w') →
  files w' = files w ∧ loader w' = loader w ∧ tmp_files w' = tmp_files w.
Proof.
  rewrite rebuild_run.
  destruct (on_change w); [|by intros [= _ <-]].
  destruct (decide (0 < loader_size (loader w))); [|by intros [= _ <-]].
  cbn zeta. destruct (from_documents _); by intros [= _ <-].
Qed.

Lemma reachable_in_sync (w : World) : reachable w → in_sync w.
Proof.
  induction 1 as [|uploaded_files w w1 o w2 _ IH Hagree Hrec Hreb].
  - split; [apply NoDup_nil_2|]. split.
    + unfold tracked_paths. cbn. by rewrite dom_empty_L.
    + intros f Hf. by apply elem_of_nil in Hf.
  - apply rebuild_frame in Hreb as (Hf & Hl & _).
    destruct (reconcile_inv _ _ _ Hagree IH Hrec) as (Hnd & Hdom & Hdocs).
    unfold in_sync, tracked_paths in *. by rewrite Hf, Hl.
Qed.


(** ** The removal loop runs to the end of the list

    The fuel [handle_removals] gives the loop is never what stops it: with
    any larger amount the loop does the same. *)

Lemma remove_file_length (uploaded_files : list UploadedFile)
    (file : UploadedFile) (w w' : World) (o : Outcome ()) :
  remove_file uploaded_files file w = (o, w') →
  length (files w') ≤ length (files w).
Proof.
  rewrite remove_file_run.
  destruct (decide (file ∈ uploaded_files)); [by intros [= _ <-]|].
  cbn zeta. destruct (tmp_files w !! _); [|by intros [= _ <-]].
  destruct (list_remove file (files w)) as [fs|] eqn:Hrm; [|by intros [= _ <-]].
  intros [= _ <-]. cbn. apply list_remove_length in Hrm. lia.
Qed.

Lemma removal_loop_fuel (uploaded_files : list UploadedFile)
    (fuel fuel' i : nat) (w : World) :
  length (files w) ≤ i + fuel → fuel ≤ fuel' →
  removal_loop fuel' uploaded_files i w = removal_loop fuel uploaded_files i w.
Proof.
  revert fuel' i w.
  induction fuel as [|fuel IH]; intros fuel' i w Hlen Hfuel.
  - assert (files w !! i = None) as Hi by (apply lookup_ge_None; lia).
    destruct fuel' as [|fuel']; [done|]. cbn. rewrite bind_run.
    unfold get_world. by rewrite Hi.
  - destruct fuel' as [|fuel']; [lia|]. cbn. rewrite !bind_run.
    unfold get_world. destruct (files w !! i) as [file|]; [|done].
    rewrite !bind_run.
    destruct (remove_file uploaded_files file w) as [[[]|e] w1] eqn:Hrm; [|done].
    apply remove_file_length in Hrm. apply IH; lia.
Qed.

Lemma handle_removals_fuel (uploaded_files : list UploadedFile) (extra : nat)
    (w : World) :
  removal_loop (length (files w) + extra) uploaded_files 0 w =
  handle_removals uploaded_files w.
Proof. apply removal_loop_fuel; lia. Qed.

(** ** What the removal loop removes *)

Lemma list_remove_middle `{EqDecision A} (x : A) (before after : list A) :
  x ∉ before → list_remove x (before ++ x :: after) = Some (before ++ after).
Proof.
  induction before as [|y before IH]; intros Hnotin; cbn.
  - by rewrite decide_True.
  - apply not_elem_of_cons in Hnotin as [Hne Hnotin].
    rewrite decide_False by done. by rewrite IH.
Qed.

Lemma removal_loop_survivors (uploaded_files : list UploadedFile) (fuel : nat) :
  ∀ (visited todo : list UploadedFile) (w : World),
    files w = visited ++ todo →
    NoDup (files w) → names_agree (files w) → staged w →
    length todo ≤ fuel →
    ∃ w', removal_loop fuel uploaded_files (length visited) w = (Returned (), w') ∧
          files w' = visited ++ removal_survivors uploaded_files todo ∧
          staged w'.
Proof.
  induction fuel as [|fuel IH]; intros visited todo w Hfiles Hnd Hagree Hstaged Hlen.
  { destruct todo; [|cbn in Hlen; lia]. exists w. by rewrite Hfiles in *. }
  cbn. rewrite bind_run. unfold get_world.
  destruct todo as [|f rest].
  { rewrite lookup_ge_None_2 by (rewrite Hfiles, app_nil_r; lia).
    exists w. by rewrite Hfiles in *. }
  assert (files w !! length visited = Some f) as ->
    by (rewrite Hfiles; apply list_lookup_middle; done).
  rewrite bind_run, remove_file_run. cbn [removal_survivors].
  destruct (decide (f ∈ uploaded_files)) as [Hkeep|Hdrop].
  - destruct (IH (visited ++ [f]) rest w) as (w' & Hrun & Hfiles' & Hstaged');
      [by rewrite <-app_assoc|done..|cbn in Hlen; lia|].
    rewrite length_app, Nat.add_1_r in Hrun. exists w'.
    by rewrite Hrun, Hfiles', <-app_assoc.
  - assert (f ∈ files w) as Hf by (rewrite Hfiles; list_solver).
    destruct (Hstaged f Hf) as [data Hdata]. cbn zeta. rewrite Hdata.
    assert (f ∉ visited) as Hfresh.
    { rewrite Hfiles in Hnd. apply NoDup_app in Hnd as (_ & Hdisj & _).
      intros Hin. apply (Hdisj f Hin). list_solver. }
    rewrite Hfiles, (list_remove_middle f visited rest Hfresh).
    set (w1 := set_on_change true _).
    assert (files w1 = visited ++ rest) as Hfiles1 by done.
    assert (NoDup (files w1)) as Hnd1.
    { rewrite Hfiles1. rewrite Hfiles in Hnd.
      apply NoDup_app in Hnd as (Hv & Hdisj & [_ Hr]%NoDup_cons).
      apply NoDup_app. split; [done|]. split; [|done].
      intros x Hx Hxr. apply (Hdisj x Hx). list_solver. }
    assert (files w1 ⊆ files w) as Hsub.
    { rewrite Hfiles1, Hfiles. intros x [Hx|Hx]%elem_of_app; apply elem_of_app;
        [by left|right; by apply list_elem_of_further]. }
    assert (names_agree (files w1)) as Hagree1.
    { intros x y Hx Hy. apply Hagree; by apply Hsub. }
    assert (staged w1) as Hstaged1.
    { intros x Hx. cbn. rewrite lookup_delete_ne; [by apply Hstaged, Hsub|].
      intros Hpath.
      assert (f = x) as <-
        by (apply (temp_filepath_agree (files w)); [done|done|by apply Hsub|done]).
      rewrite Hfiles1 in Hx. rewrite Hfiles in Hnd.
      apply NoDup_app in Hnd as (_ & Hdisj & [Hfr _]%NoDup_cons).
      apply elem_of_app in Hx as [Hx|Hx]; [by apply Hfresh|by apply Hfr]. }
    destruct rest as [|g rest'].
    + assert (removal_loop fuel uploaded_files (S (length visited)) w1 =
              (Returned (), w1)) as ->.
      { destruct fuel as [|fuel']; [done|]. cbn. rewrite bind_run.
        unfold get_world.
        by rewrite lookup_ge_None_2 by (rewrite Hfiles1, app_nil_r; lia). }
      exists w1. by rewrite Hfiles1.
    + destruct (IH (visited ++ [g]) rest' w1) as (w' & Hrun & Hfiles' & Hstaged');
        [by rewrite <-app_assoc|done..|cbn in Hlen; lia|].
      rewrite length_app, Nat.add_1_r in Hrun. exists w'.
      by rewrite Hrun, Hfiles', <-app_assoc.
Qed.

Lemma removal_survivors_filter (uploaded_files fs : list UploadedFile) :
  isolated_removals uploaded_files fs →
  removal_survivors uploaded_files fs = filter (.∈ uploaded_files) fs.
Proof.
  remember (length fs) as n eqn:Hn. revert fs Hn.
  induction n as [n IH] using lt_wf_ind. intros fs -> Hiso.
  destruct fs as [|f rest]; [done|]. cbn [removal_survivors].
  destruct (decide (f ∈ uploaded_files)) as [Hkeep|Hdrop].
  - rewrite filter_cons_True by done. f_equal.
    apply (IH (length rest)); [cbn; lia|done|].
    intros i x y Hx Hy. apply (Hiso (S i) x y); done.
  - rewrite filter_cons_False by done.
    destruct rest as [|g rest']; [done|].
    rewrite filter_cons_True by (by apply (Hiso 0 f g)). f_equal.
    apply (IH (length rest')); [cbn; lia|done|].
    intros i x y Hx Hy. apply (Hiso (S (S i)) x y); done.
Qed.

Lemma handle_uploads_files (uploaded_files : list UploadedFile) (w w1 : World) :
  handle_uploads uploaded_files w = (Returned (), w1) →
  ∃ news, files w1 = files w ++ news ∧
          (∀ f, f ∈ news → f ∈ uploaded_files) ∧
          (∀ f, f ∈ uploaded_files → f ∈ files w1).
Proof.
  revert w. induction uploaded_files as [|file rest IH]; intros w.
  - intros [= <-]. exists []. rewrite app_nil_r. list_solver.
  - cbn. rewrite bind_run, upload_file_run.
    destruct (decide (file ∈ files w)) as [Hin|Hin].
    + intros (news & Hfiles & Hnews & Hall)%IH. exists news.
      split; [done|]. split; [list_solver|].
      intros f [->|Hf]%elem_of_cons; [|by apply Hall].
      rewrite Hfiles. apply elem_of_app. by left.
    + cbn zeta. destruct (parse_file _ _); [|done].
      intros (news & Hfiles & Hnews & Hall)%IH. cbn in Hfiles.
      exists (file :: news). rewrite Hfiles, <-app_assoc. split; [done|].
      split.
      { intros f [->|Hf]%elem_of_cons;
          [apply list_elem_of_here|by apply list_elem_of_further, Hnews]. }
      intros f [->|Hf]%elem_of_cons.
      { apply elem_of_app. right. apply list_elem_of_here. }
      rewrite (app_assoc (files w)), <-Hfiles. by apply Hall.
Qed.

Lemma handle_uploads_staged (uploaded_files : list UploadedFile) (w w1 : World) :
  staged w → handle_uploads uploaded_files w = (Returned (), w1) → staged w1.
Proof.
  revert w. induction uploaded_files as [|file rest IH]; intros w Hstaged.
  - by intros [= <-].
  - cbn. rewrite bind_run, upload_file_run.
    destruct (decide (file ∈ files w)) as [Hin|Hin]; [by apply IH|].
    cbn zeta. destruct (parse_file _ _); [|done]. apply IH.
    intros f Hf. cbn in *. rewrite lookup_insert_is_Some.
    destruct (decide (temp_filepath file = temp_filepath f)); [by left|right].
    split; [done|]. apply Hstaged.
    apply elem_of_app in Hf as [Hf|Hf%list_elem_of_singleton]; [done|congruence].
Qed.

Lemma handle_uploads_returns (uploaded_files : list UploadedFile) (w : World) :
  (∀ f, f ∈ uploaded_files →
     ∃ docs, parse_file (temp_filepath f) (getvalue f) = Returned docs) →
  ∃ w1, handle_uploads uploaded_files w = (Returned (), w1).
Proof.
  revert w. induction uploaded_files as [|file rest IH]; intros w Hparse.
  - by exists w.
  - cbn. rewrite bind_run, upload_file_run.
    destruct (decide (file ∈ files w)); [apply IH; list_solver|].
    cbn zeta. destruct (Hparse file) as [docs ->]; [list_solver|].
    apply IH. list_solver.
Qed.

Lemma handle_removals_run (uploaded_files : list UploadedFile) (w : World) :
  NoDup (files w) → names_agree (files w) → staged w →
  ∃ w', handle_removals uploaded_files w = (Returned (), w') ∧
        files w' = removal_survivors uploaded_files (files w) ∧
        staged w'.
Proof.
  intros Hnd Hagree Hstaged. unfold handle_removals. rewrite bind_run.
  unfold get_world.
  by apply (removal_loop_survivors uploaded_files (length (files w)) [] (files w) w).
Qed.

(** X1. On distinct, staged tracked files with distinct names the removal
    loop returns, and the tracked files it leaves are [removal_survivors]:
    after each file it removes, the next one is kept without being looked
    at. *)
Theorem handle_removals_survivors (uploaded_files : list UploadedFile) (w : World) :
  NoDup (files w) → names_agree (files w) → staged w →
  ∃ w', handle_removals uploaded_files w = (Returned (), w') ∧
        files w' = removal_survivors uploaded_files (files w) ∧
        staged w'.
Proof. apply handle_removals_run. Qed.

Lemma isolated_removals_app (uploaded_files fs news : list UploadedFile) :
  isolated_removals uploaded_files fs →
  (∀ f, f ∈ news → f ∈ uploaded_files) →
  isolated_removals uploaded_files (fs ++ news).
Proof.
  intros Hiso Hnews i f g Hf Hg Hdrop.
  destruct (decide (S i < length fs)) as [Hlt|Hge].
  - rewrite lookup_app_l in Hf by lia. rewrite lookup_app_l in Hg by lia.
    by apply (Hiso i f g).
  - rewrite lookup_app_r in Hg by lia. apply Hnews.
    by eapply list_elem_of_lookup_2.
Qed.

(** X2. When every reported file parses, files with the same name are the
    same file, and no tracked file the report lacks is directly followed by
    another one it lacks, a reconcile cycle returns with the tracked files
    exactly the reported ones, the loader storing exactly them and all of
    them staged. *)
Theorem reconcile_tracks_report (uploaded_files : list UploadedFile) (w : World) :
  in_sync w → staged w →
  names_agree (files w ++ uploaded_files) →
  (∀ f, f ∈ uploaded_files →
     ∃ docs, parse_file (temp_filepath f) (getvalue f) = Returned docs) →
  isolated_removals uploaded_files (files w) →
  ∃ w', reconcile uploaded_files w = (Returned (), w') ∧
        (∀ f, f ∈ files w' ↔ f ∈ uploaded_files) ∧
        in_sync w' ∧ staged w'.
Proof.
  intros Hsync Hstaged Hagree Hparse Hiso.
  destruct (handle_uploads_returns uploaded_files w Hparse) as [w1 Hup].
  destruct (handle_uploads_files _ _ _ Hup) as (news & Hfiles1 & Hnews & Hall).
  pose proof (handle_uploads_staged _ _ _ Hstaged Hup) as Hstaged1.
  assert (loop_inv (files w ++ uploaded_files) w1) as [Hsync1 Hsub1].
  { eapply handle_uploads_inv; [done| |split; [done|]|done]; list_solver. }
  assert (names_agree (files w1)) as Hagree1.
  { intros x y Hx Hy. apply Hagree; by apply Hsub1. }
  destruct (handle_removals_run uploaded_files w1)
    as (w' & Hrm & Hfiles' & Hstaged'); [apply Hsync1|done..|].
  assert (reconcile uploaded_files w = (Returned (), w')) as Hrec.
  { unfold reconcile. by rewrite bind_run, Hup. }
  exists w'. split; [done|]. split; [|split; [|done]].
  - intros f. rewrite Hfiles', removal_survivors_filter, list_elem_of_filter.
    + split; [by intros [? _]|]. intros Hf. split; [done|by apply Hall].
    + rewrite Hfiles1. by apply isolated_removals_app.
  - by apply (reconcile_inv uploaded_files w w').
Qed.

(** ** The rebuild block *)

(** C7. When [on_change] is false the rebuild block does nothing: it
    returns in the same world, so the call log (no embedding call, no LLM
    call), the published agent, the tracked files and the flag are the ones
    it started with. *)
Theorem clean_rebuild_is_noop (uploaded_files : list UploadedFile) (w : World) :
  on_change w = false →
  rebuild uploaded_files w = (Returned (), w).
Proof. intros Hclean. rewrite rebuild_run, Hclean. reflexivity. Qed.

(** C5. A rebuild that raises leaves the published agent as it was and the
    flag set: the agent is assigned, and the flag cleared, only after the
    vector store was built.  The tracked files, the loader and the staged
    files are untouched too, so the next run retries the same rebuild. *)
Theorem failed_rebuild_keeps_agent (uploaded_files : list UploadedFile)
    (w w' : World) (e : Exception) :
  rebuild uploaded_files w = (Raised e, w') →
  agent w' = agent w ∧ on_change w' = true ∧ on_change w = true ∧
  files w' = files w ∧ loader w' = loader w ∧ tmp_files w' = tmp_files w ∧
  from_documents (split_documents 1500 200 (loader_documents (loader w))) = Raised e.
Proof.
  rewrite rebuild_run. intros Hrun.
  destruct (on_change w) eqn:Hdirty; [|discriminate].
  destruct (decide (0 < loader_size (loader w))); [|discriminate].
  cbn zeta in Hrun.
  destruct (from_documents _) eqn:Hbuild; [discriminate|].
  injection Hrun as -> <-. cbn. rewrite Hdirty. done.
Qed.

(** C3, amended. A dirty rebuild branches on [loader.size], not on the
    number of chunks.  With an empty loader it stores a toolless agent and
    calls neither the splitter nor the embedding service.  With a non-empty
    loader it always hands the chunks to the index builder, one embedding
    call whatever their number: when that returns, the agent gets exactly
    the new tool; when it raises, the rebuild raises. *)
Theorem rebuild_branches_on_loader_size (uploaded_files : list UploadedFile)
    (w : World) :
  on_change w = true →
  let chunks := split_documents 1500 200 (loader_documents (loader w)) in
  (loader_size (loader w) = 0 →
     ∃ w', rebuild uploaded_files w = (Returned (), w') ∧
           tools (agent w') = [] ∧ calls w' = calls w ∧ on_change w' = false) ∧
  (0 < loader_size (loader w) →
     ∃ o w', rebuild uploaded_files w = (o, w') ∧
       calls w' = EmbedDocuments chunks :: calls w ∧
       match from_documents chunks with
       | Returned vector =>
           o = Returned () ∧ on_change w' = false ∧
           tools (agent w') = [create_vector_tool uploaded_files vector]
       | Raised e => o = Raised e ∧ agent w' = agent w ∧ on_change w' = true
       end).
Proof.
  intros Hdirty chunks. rewrite rebuild_run, Hdirty. split.
  - intros Hsize. destruct (decide (0 < loader_size (loader w))); [lia|].
    eexists. split; [reflexivity|]. done.
  - intros Hsize. destruct (decide (0 < loader_size (loader w))); [|lia].
    cbn zeta. fold chunks.
    destruct (from_documents chunks) as [vector|e];
      eexists _, _; (split; [reflexivity|]); cbn; by rewrite ?Hdirty.
Qed.


(** ** The upload loop *)

Lemma handle_uploads_app (pre post : list UploadedFile) (w : World) :
  handle_uploads (pre ++ post) w = (handle_uploads pre;; handle_uploads post) w.
Proof.
  revert w. induction pre as [|file pre IH]; intros w; [done|].
  cbn. rewrite !bind_run. destruct (upload_file file w) as [[[]|e] w1]; [|done].
  by rewrite IH, bind_run.
Qed.

(** C1, amended. When the load of a new file raises, the upload loop stops
    there with that error.  The file is tracked by then: it was appended to
    [st.session_state.files], and its bytes staged, before the load.  The
    loader's stored documents and the flag are the ones before that file. *)
Theorem failed_load_leaves_file_tracked (pre post : list UploadedFile)
    (file : UploadedFile) (w w1 : World) (e : Exception) :
  handle_uploads pre w = (Returned (), w1) →
  file ∉ files w1 →
  parse_file (temp_filepath file) (getvalue file) = Raised e →
  ∃ w2, handle_uploads (pre ++ file :: post) w = (Raised e, w2) ∧
    files w2 = files w1 ++ [file] ∧
    file ∈ files w2 ∧
    loader w2 = loader w1 ∧
    on_change w2 = on_change w1 ∧
    tmp_files w2 !! temp_filepath file = Some (getvalue file).
Proof.
  intros Hpre Hnew Hparse. rewrite handle_uploads_app, bind_run, Hpre.
  cbn. rewrite bind_run, upload_file_run.
  destruct (decide (file ∈ files w1)); [done|]. cbn zeta. rewrite Hparse.
  eexists. split; [reflexivity|]. cbn.
  split; [done|]. split; [list_solver|]. split; [done|]. split; [done|].
  apply lookup_insert_eq.
Qed.

(** ** Clearing the transcript *)

(** C10. Pressing Clear History empties [st.session_state.messages] and
    nothing else: the conversation memory kept under [langchain_messages],
    the tracked files, the loader, the flag, the published agent, the staged
    files and the call log are the ones before the press. *)
Theorem clear_history_resets_only_transcript (w : World) :
  ∃ w', handle_clear_history true w = (Returned (), w') ∧
    messages w' = [] ∧
    langchain_messages w' = langchain_messages w ∧
    files w' = files w ∧ loader w' = loader w ∧
    on_change w' = on_change w ∧ agent w' = agent w ∧
    tmp_files w' = tmp_files w ∧ calls w' = calls w.
Proof. eexists. split; [reflexivity|]. done. Qed.

(** ** Parse errors *)

Lemma py_slice_to_length (n : nat) (s : string) :
  String.length (py_slice_to n s) ≤ n.
Proof.
  unfold py_slice_to. revert s.
  induction n as [|n IH]; intros [|c s]; cbn; try lia.
  specialize (IH s). lia.
Qed.

Lemma published_handler (a : AgentExecutor) :
  published a → handle_parsing_errors a = handle_parsing_errors_lambda.
Proof.
  intros [|uploaded_files w w' Hdirty Hrun]; [reflexivity|].
  rewrite rebuild_run, Hdirty in Hrun.
  destruct (decide (0 < loader_size (loader w))).
  - cbn zeta in Hrun. destruct (from_documents _); [|discriminate].
    by injection Hrun as <-.
  - by injection Hrun as <-.
Qed.

(** ** What the reconcile loops leave alone, and the flag *)

Lemma outside_reconcile_trans (w1 w2 w3 : World) :
  outside_reconcile w1 w2 → outside_reconcile w2 w3 → outside_reconcile w1 w3.
Proof.
  intros (Hc & Ha & Hm & Hl) (Hc' & Ha' & Hm' & Hl').
  unfold outside_reconcile. by rewrite Hc', Ha', Hm', Hl'.
Qed.

Lemma upload_file_outside (file : UploadedFile) (w w' : World) (o : Outcome ()) :
  upload_file file w = (o, w') → outside_reconcile w w'.
Proof.
  rewrite upload_file_run. destruct (decide (file ∈ files w)); [by intros [= _ <-]|].
  cbn zeta. destruct (parse_file _ _); by intros [= _ <-].
Qed.

Lemma remove_file_outside (uploaded_files : list UploadedFile)
    (file : UploadedFile) (w w' : World) (o : Outcome ()) :
  remove_file uploaded_files file w = (o, w') → outside_reconcile w w'.
Proof.
  rewrite remove_file_run.
  destruct (decide (file ∈ uploaded_files)); [by intros [= _ <-]|].
  cbn zeta. destruct (tmp_files w !! _); [|by intros [= _ <-]].
  destruct (list_remove file (files w)); by intros [= _ <-].
Qed.

Lemma handle_uploads_outside (uploaded_files : list UploadedFile)
    (w w' : World) (o : Outcome ()) :
  handle_uploads uploaded_files w = (o, w') → outside_reconcile w w'.
Proof.
  revert w. induction uploaded_files as [|file rest IH]; intros w.
  - by intros [= _ <-].
  - cbn. rewrite bind_run.
    destruct (upload_file file w) as [[[]|e] w1] eqn:Hup.
    + intros Hrest%IH. apply upload_file_outside in Hup.
      by apply (outside_reconcile_trans w w1 w').
    + intros [= _ <-]. by apply upload_file_outside in Hup.
Qed.

Lemma removal_loop_outside (uploaded_files : list UploadedFile) (fuel i : nat)
    (w w' : World) (o : Outcome ()) :
  removal_loop fuel uploaded_files i w = (o, w') → outside_reconcile w w'.
Proof.
  revert i w. induction fuel as [|fuel IH]; intros i w; [by intros [= _ <-]|].
  cbn. rewrite bind_run. unfold get_world.
  destruct (files w !! i) as [file|]; [|by intros [= _ <-]].
  rewrite bind_run.
  destruct (remove_file uploaded_files file w) as [[[]|e] w1] eqn:Hrm.
  - intros Hrest%IH. apply remove_file_outside in Hrm.
    by apply (outside_reconcile_trans w w1 w').
  - intros [= _ <-]. by apply remove_file_outside in Hrm.
Qed.

Lemma reconcile_outside (uploaded_files : list UploadedFile)
    (w w' : World) (o : Outcome ()) :
  reconcile uploaded_files w = (o, w') → outside_reconcile w w'.
Proof.
  unfold reconcile, handle_removals. rewrite bind_run.
  destruct (handle_uploads uploaded_files w) as [[[]|e] w1] eqn:Hup.
  - rewrite bind_run. unfold get_world. intros Hrm%removal_loop_outside.
    apply handle_uploads_outside in Hup.
    by apply (outside_reconcile_trans w w1 w').
  - intros [= _ <-]. by apply handle_uploads_outside in Hup.
Qed.

(** X3. A reconcile cycle, however it ends, makes no call to the
    embedding service or to the LLM, and leaves the published agent, the
    transcript and the conversation memory as they were. *)
Theorem reconcile_makes_no_call (uploaded_files : list UploadedFile)
    (w w' : World) (o : Outcome ()) :
  reconcile uploaded_files w = (o, w') →
  calls w' = calls w ∧ agent w' = agent w ∧
  messages w' = messages w ∧ langchain_messages w' = langchain_messages w.
Proof. apply reconcile_outside. Qed.

Lemma nothing_or_flag_seq (w w1 w' : World) (o : Outcome ()) :
  nothing_or_flag w w1 (Returned ()) → nothing_or_flag w1 w' o →
  nothing_or_flag w w' o.
Proof.
  intros [Hkeep Hstep] [Hkeep' Hstep']. split; [by intros ?%Hkeep%Hkeep'|].
  intros Ho. destruct (Hstep eq_refl) as [->|Hflag]; [by apply Hstep'|].
  right. by apply Hkeep'.
Qed.

Lemma upload_file_flag (file : UploadedFile) (w w' : World) (o : Outcome ()) :
  upload_file file w = (o, w') → nothing_or_flag w w' o.
Proof.
  rewrite upload_file_run.
  destruct (decide (file ∈ files w)); [intros [= <- <-]; split; [done|by left]|].
  cbn zeta. destruct (parse_file _ _); intros [= <- <-]; split; try done.
  by right.
Qed.

Lemma remove_file_flag (uploaded_files : list UploadedFile)
    (file : UploadedFile) (w w' : World) (o : Outcome ()) :
  remove_file uploaded_files file w = (o, w') → nothing_or_flag w w' o.
Proof.
  rewrite remove_file_run.
  destruct (decide (file ∈ uploaded_files));
    [intros [= <- <-]; split; [done|by left]|].
  cbn zeta. destruct (tmp_files w !! _); [|intros [= <- <-]; by split].
  destruct (list_remove file (files w)); intros [= <- <-]; split; try done.
  by right.
Qed.

Lemma handle_uploads_flag (uploaded_files : list UploadedFile)
    (w w' : World) (o : Outcome ()) :
  handle_uploads uploaded_files w = (o, w') → nothing_or_flag w w' o.
Proof.
  revert w. induction uploaded_files as [|file rest IH]; intros w.
  - intros [= <- <-]. split; [done|by left].
  - cbn. rewrite bind_run.
    destruct (upload_file file w) as [[[]|e] w1] eqn:Hup.
    + intros Hrest%IH. apply upload_file_flag in Hup.
      by apply (nothing_or_flag_seq w w1 w').
    + intros [= <- <-]. by apply upload_file_flag in Hup.
Qed.

Lemma removal_loop_flag (uploaded_files : list UploadedFile) (fuel i : nat)
    (w w' : World) (o : Outcome ()) :
  removal_loop fuel uploaded_files i w = (o, w') → nothing_or_flag w w' o.
Proof.
  revert i w. induction fuel as [|fuel IH]; intros i w.
  { intros [= <- <-]. split; [done|by left]. }
  cbn. rewrite bind_run. unfold get_world.
  destruct (files w !! i) as [file|]; [|intros [= <- <-]; split; [done|by left]].
  rewrite bind_run.
  destruct (remove_file uploaded_files file w) as [[[]|e] w1] eqn:Hrm.
  - intros Hrest%IH. apply remove_file_flag in Hrm.
    by apply (nothing_or_flag_seq w w1 w').
  - intros [= <- <-]. by apply remove_file_flag in Hrm.
Qed.

Lemma reconcile_flag (uploaded_files : list UploadedFile)
    (w w' : World) (o : Outcome ()) :
  reconcile uploaded_files w = (o, w') → nothing_or_flag w w' o.
Proof.
  unfold reconcile, handle_removals. rewrite bind_run.
  destruct (handle_uploads uploaded_files w) as [[[]|e] w1] eqn:Hup.
  - rewrite bind_run. unfold get_world. intros Hrm%removal_loop_flag.
    apply handle_uploads_flag in Hup. by apply (nothing_or_flag_seq w w1 w').
  - intros [= <- <-]. by apply handle_uploads_flag in Hup.
Qed.

(** X4. A reconcile cycle that returns either changed nothing at all or
    left the flag set; and a cycle, however it ends, never clears a flag
    that was set. *)
Theorem reconcile_changes_set_flag (uploaded_files : list UploadedFile)
    (w w' : World) (o : Outcome ()) :
  reconcile uploaded_files w = (o, w') →
  (on_change w = true → on_change w' = true) ∧
  (o = Returned () → w' = w ∨ on_change w' = true).
Proof. apply reconcile_flag. Qed.

Lemma rebuild_frame_messages (uploaded_files : list UploadedFile)
    (w w' : World) (o : Outcome ()) :
  rebuild uploaded_files w = (o, w') → messages w' = messages w.
Proof.
  rewrite rebuild_run.
  destruct (on_change w); [|by intros [= _ <-]].
  destruct (decide (0 < loader_size (loader w))); [|by intros [= _ <-]].
  cbn zeta. destruct (from_documents _); by intros [= _ <-].
Qed.

(** ** A report that matches the tracked files *)

Lemma handle_uploads_tracked (uploaded_files : list UploadedFile) (w : World) :
  (∀ f, f ∈ uploaded_files → f ∈ files w) →
  handle_uploads uploaded_files w = (Returned (), w).
Proof.
  induction uploaded_files as [|file rest IH]; intros Hall; [done|].
  cbn. rewrite bind_run, upload_file_run.
  rewrite decide_True by (apply Hall, list_elem_of_here).
  apply IH. intros f Hf. by apply Hall, list_elem_of_further.
Qed.

Lemma removal_loop_reported (uploaded_files : list UploadedFile) (fuel i : nat)
    (w : World) :
  (∀ f, f ∈ files w → f ∈ uploaded_files) →
  removal_loop fuel uploaded_files i w = (Returned (), w).
Proof.
  intros Hall. revert i. induction fuel as [|fuel IH]; intros i; [done|].
  cbn. rewrite bind_run. unfold get_world.
  destruct (files w !! i) as [file|] eqn:Hi; [|done].
  rewrite bind_run, remove_file_run.
  rewrite decide_True by (by eapply Hall, list_elem_of_lookup_2).
  apply IH.
Qed.

Lemma reconcile_matching_run (uploaded_files : list UploadedFile) (w : World) :
  (∀ f, f ∈ files w ↔ f ∈ uploaded_files) →
  reconcile uploaded_files w = (Returned (), w).
Proof.
  intros Hsame. unfold reconcile, handle_removals.
  rewrite bind_run, handle_uploads_tracked by (intros f; apply Hsame).
  rewrite bind_run. unfold get_world.
  apply removal_loop_reported. intros f. apply Hsame.
Qed.

(** X5. When the report and the tracked files have the same members, a
    reconcile cycle returns in the world it started in: nothing is staged,
    loaded, removed or unlinked, and the flag keeps its value, set or not. *)
Theorem reconcile_matching_is_noop (uploaded_files : list UploadedFile)
    (w : World) :
  (∀ f, f ∈ files w ↔ f ∈ uploaded_files) →
  reconcile uploaded_files w = (Returned (), w).
Proof. apply reconcile_matching_run. Qed.

(** X6. A rerun of the script with no press of Clear History, a report
    that matches the tracked files, a clear flag and no chat input changes
    nothing: no call is made and no session key is written. *)
Theorem steady_rerun_is_noop (uploaded_files : list UploadedFile) (w : World) :
  (∀ f, f ∈ files w ↔ f ∈ uploaded_files) →
  on_change w = false →
  script_run false uploaded_files None w = (Returned (), w).
Proof.
  intros Hsame Hclean. unfold script_run, synchronize, handle_clear_history.
  rewrite bind_run. unfold mret at 1, script_ret. rewrite !bind_run.
  rewrite (reconcile_matching_run uploaded_files w Hsame).
  by rewrite rebuild_run, Hclean.
Qed.

(** ** One cycle: the flag and the calls *)

Lemma synchronize_one_embedding_messages (w w' : World)
    (uploaded_files : list UploadedFile) (o : Outcome ()) :
  synchronize uploaded_files w = (o, w') → messages w' = messages w.
Proof.
  unfold synchronize. rewrite bind_run.
  destruct (reconcile uploaded_files w) as [[[]|e] w1] eqn:Hrec.
  - apply reconcile_outside in Hrec as (_ & _ & Hm & _).
    intros Hreb. apply rebuild_frame_messages in Hreb. by rewrite Hreb.
  - intros [= _ <-]. by apply reconcile_outside in Hrec as (_ & _ & Hm & _).
Qed.

(** X7. A cycle, reconcile then rebuild, makes at most one call, to the
    embedding service with the chunks of the loader's documents, and
    leaves the transcript and the memory alone; when it returns the flag
    is clear. *)
Theorem synchronize_one_embedding (uploaded_files : list UploadedFile)
    (w w' : World) (o : Outcome ()) :
  synchronize uploaded_files w = (o, w') →
  (calls w' = calls w ∨
   calls w' =
     EmbedDocuments (split_documents 1500 200 (loader_documents (loader w')))
       :: calls w) ∧
  messages w' = messages w ∧ langchain_messages w' = langchain_messages w ∧
  (o = Returned () → on_change w' = false).
Proof.
  unfold synchronize. rewrite bind_run.
  destruct (reconcile uploaded_files w) as [[[]|e] w1] eqn:Hrec.
  - apply reconcile_outside in Hrec as (Hc & _ & Hm & Hl).
    rewrite rebuild_run. destruct (on_change w1) eqn:Hflag.
    + destruct (decide (0 < loader_size (loader w1))).
      * cbn zeta. destruct (from_documents _); intros [= <- <-]; cbn;
          rewrite Hc, Hm, Hl; (split; [by right|done]).
      * intros [= <- <-]. cbn. rewrite Hc, Hm, Hl. split; [by left|done].
    + intros [= <- <-]. rewrite Hc, Hm, Hl. split; [by left|done].
  - intros [= <- <-]. apply reconcile_outside in Hrec as (Hc & _ & Hm & Hl).
    rewrite Hc, Hm, Hl. split; [by left|done].
Qed.

(** X8. The rebuild block, however it ends, leaves the tracked files, the
    loader, the staged files, the transcript and the conversation memory
    as they were: it writes only the agent, the flag and the call log. *)
Theorem rebuild_writes_agent_and_flag_only (uploaded_files : list UploadedFile)
    (w w' : World) (o : Outcome ()) :
  rebuild uploaded_files w = (o, w') →
  files w' = files w ∧ loader w' = loader w ∧ tmp_files w' = tmp_files w ∧
  messages w' = messages w ∧ langchain_messages w' = langchain_messages w.
Proof.
  rewrite rebuild_run.
  destruct (on_change w); [|by intros [= _ <-]].
  destruct (decide (0 < loader_size (loader w))); [|by intros [= _ <-]].
  cbn zeta. destruct (from_documents _); by intros [= _ <-].
Qed.

(** ** What each loop does to the tracked list *)

Lemma list_remove_others `{EqDecision A} (x : A) (lst lst' : list A) :
  list_remove x lst = Some lst' →
  (∀ y, y ∈ lst → y ≠ x → y ∈ lst') ∧ (∀ y, y ∈ lst' → y ∈ lst).
Proof.
  revert lst'. induction lst as [|z lst IH]; intros lst' Hrm; [done|].
  cbn in Hrm. destruct (decide (x = z)) as [->|Hne].
  - injection Hrm as <-. split.
    + intros y [->|Hy]%elem_of_cons Hyz; [congruence|done].
    + intros y Hy. by apply list_elem_of_further.
  - destruct (list_remove x lst) as [k|] eqn:Hk; [|done].
    injection Hrm as <-. destruct (IH k eq_refl) as [Hkeep Hsub]. split.
    + intros y [->|Hy]%elem_of_cons Hyx;
        [apply list_elem_of_here|by apply list_elem_of_further, Hkeep].
    + intros y [->|Hy]%elem_of_cons;
        [apply list_elem_of_here|by apply list_elem_of_further, Hsub].
Qed.

Lemma remove_file_only_drops (uploaded_files : list UploadedFile)
    (file : UploadedFile) (w w' : World) (o : Outcome ()) :
  remove_file uploaded_files file w = (o, w') →
  only_drops_unreported uploaded_files w w'.
Proof.
  rewrite remove_file_run.
  destruct (decide (file ∈ uploaded_files)) as [|Hdrop];
    [by intros [= _ <-]|].
  cbn zeta. destruct (tmp_files w !! _); [|by intros [= _ <-]].
  destruct (list_remove file (files w)) as [fs|] eqn:Hrm; [|by intros [= _ <-]].
  intros [= _ <-]. destruct (list_remove_others _ _ _ Hrm) as [Hkeep Hsub].
  split; cbn; [|done]. intros f Hf Hrep. apply Hkeep; [done|]. by intros ->.
Qed.

Lemma removal_loop_only_drops (uploaded_files : list UploadedFile)
    (fuel i : nat) (w w' : World) (o : Outcome ()) :
  removal_loop fuel uploaded_files i w = (o, w') →
  only_drops_unreported uploaded_files w w'.
Proof.
  revert i w. induction fuel as [|fuel IH]; intros i w; [by intros [= _ <-]|].
  cbn. rewrite bind_run. unfold get_world.
  destruct (files w !! i) as [file|]; [|by intros [= _ <-]].
  rewrite bind_run.
  destruct (remove_file uploaded_files file w) as [[[]|e] w1] eqn:Hrm.
  - intros [Hkeep' Hsub']%IH.
    apply remove_file_only_drops in Hrm as [Hkeep Hsub]. split.
    + intros f Hf Hrep. apply Hkeep'; [|done]. by apply Hkeep.
    + intros f Hf. by apply Hsub, Hsub'.
  - intros [= _ <-]. by apply remove_file_only_drops in Hrm.
Qed.

(** X9. The removal loop, however it ends, removes only files the report
    lacks: every tracked file that is in the report is still tracked
    afterwards, and no file becomes tracked. *)
Theorem handle_removals_keeps_reported (uploaded_files : list UploadedFile)
    (w w' : World) (o : Outcome ()) :
  handle_removals uploaded_files w = (o, w') →
  (∀ f, f ∈ files w → f ∈ uploaded_files → f ∈ files w') ∧
  (∀ f, f ∈ files w' → f ∈ files w).
Proof.
  unfold handle_removals. rewrite bind_run. unfold get_world.
  apply removal_loop_only_drops.
Qed.

Lemma upload_file_appends (file : UploadedFile) (w w' : World) (o : Outcome ()) :
  upload_file file w = (o, w') →
  (file ∈ files w ∧ files w' = files w) ∨
  ((file ∉ files w) ∧ files w' = files w ++ [file]).
Proof.
  rewrite upload_file_run.
  destruct (decide (file ∈ files w)); [intros [= _ <-]; by left|].
  cbn zeta. destruct (parse_file _ _); intros [= _ <-]; by right.
Qed.

(** X10. The upload loop, however it ends, only appends to the tracked
    list: the files tracked before keep their places, and what follows them
    are reported files that were not tracked, each once, even when the
    report repeats a file.  When the loop returns, every reported file is
    tracked. *)
Theorem handle_uploads_appends (uploaded_files : list UploadedFile)
    (w w' : World) (o : Outcome ()) :
  handle_uploads uploaded_files w = (o, w') →
  ∃ news, files w' = files w ++ news ∧ NoDup news ∧
    (∀ f, f ∈ news → f ∈ uploaded_files ∧ f ∉ files w) ∧
    (o = Returned () → ∀ f, f ∈ uploaded_files → f ∈ files w').
Proof.
  revert w. induction uploaded_files as [|file rest IH]; intros w.
  - intros [= <- <-]. exists []. rewrite app_nil_r.
    split; [done|]. split; [apply NoDup_nil_2|]. split.
    + intros f Hf. by apply elem_of_nil in Hf.
    + intros _ f Hf. by apply elem_of_nil in Hf.
  - cbn. rewrite bind_run.
    destruct (upload_file file w) as [[[]|e] w1] eqn:Hup.
    + intros (news & Hfiles & Hnd & Hnews & Hall)%IH.
      apply upload_file_appends in Hup as [[Hin Hw1]|[Hin Hw1]];
        rewrite Hw1 in *.
      * exists news. split; [done|]. split; [done|]. split.
        -- intros f Hf. destruct (Hnews f Hf). split; [|done].
           by apply list_elem_of_further.
        -- intros Ho f [->|Hf]%elem_of_cons; [|by apply Hall].
           rewrite Hfiles. apply elem_of_app. by left.
      * exists (file :: news). rewrite Hfiles, <-app_assoc.
        split; [done|]. split; [|split].
        -- apply NoDup_cons. split; [|done]. intros Hf.
           destruct (Hnews file Hf) as [_ Hnot]. apply Hnot.
           apply elem_of_app. right. apply list_elem_of_here.
        -- intros f [->|Hf]%elem_of_cons; [split; [apply list_elem_of_here|done]|].
           destruct (Hnews f Hf) as [Hrest Hnot]. split.
           ++ by apply list_elem_of_further.
           ++ intros Hfw. apply Hnot, elem_of_app. by left.
        -- intros Ho f [->|Hf]%elem_of_cons.
           ++ apply elem_of_app. right. apply list_elem_of_here.
           ++ rewrite (app_assoc (files w)), <-Hfiles. by apply Hall.
    + intros [= <- <-].
      apply upload_file_appends in Hup as [[Hin Hw1]|[Hin Hw1]]; rewrite Hw1.
      * exists []. rewrite app_nil_r. split; [done|].
        split; [apply NoDup_nil_2|]. split; [|done].
        intros f Hf. by apply elem_of_nil in Hf.
      * exists [file]. split; [done|]. split; [apply NoDup_singleton|].
        split; [|done]. intros f ->%list_elem_of_singleton.
        split; [apply list_elem_of_here|done].
Qed.

(** ** The staged bytes *)

Lemma upload_file_bytes (universe : list UploadedFile) (file : UploadedFile)
    (w w' : World) (o : Outcome ()) :
  names_agree universe → file ∈ universe → bytes_inv universe w →
  upload_file file w = (o, w') → bytes_inv universe w'.
Proof.
  intros Hagree Hfile (Hnd & Hbytes & Hsub). rewrite upload_file_run.
  destruct (decide (file ∈ files w)) as [Hin|Hin]; [by intros [= _ <-]|].
  cbn zeta.
  assert (bytes_inv universe
            (set_tmp_files (<[temp_filepath file:=getvalue file]> (tmp_files w))
               (set_files (files w ++ [file]) w))) as Hstaged.
  { split; [|split]; cbn.
    - apply NoDup_app. split; [done|]. split; [|apply NoDup_singleton].
      intros x Hx ->%list_elem_of_singleton. done.
    - intros f [Hf| ->%list_elem_of_singleton]%elem_of_app; cbn.
      + rewrite lookup_insert_ne; [by apply Hbytes|]. intros Hpath. apply Hin.
        by rewrite (temp_filepath_agree universe file f Hagree Hfile (Hsub f Hf) Hpath).
      + apply lookup_insert_eq.
    - intros x [Hx| ->%list_elem_of_singleton]%elem_of_app; [by apply Hsub|done]. }
  destruct (parse_file _ _); intros [= _ <-]; [|done].
  destruct Hstaged as (Hnd' & Hbytes' & Hsub'). by split.
Qed.

Lemma handle_uploads_bytes (universe uploaded_files : list UploadedFile)
    (w w' : World) (o : Outcome ()) :
  names_agree universe → (∀ f, f ∈ uploaded_files → f ∈ universe) →
  bytes_inv universe w →
  handle_uploads uploaded_files w = (o, w') → bytes_inv universe w'.
Proof.
  intros Hagree. revert w.
  induction uploaded_files as [|file rest IH]; intros w Hsub Hinv.
  - by intros [= _ <-].
  - cbn. rewrite bind_run.
    assert (file ∈ universe) as Hfile by apply Hsub, list_elem_of_here.
    destruct (upload_file file w) as [[[]|e] w1] eqn:Hup.
    + apply IH; [|by eapply upload_file_bytes].
      intros f Hf. by apply Hsub, list_elem_of_further.
    + intros [= _ <-]. by eapply upload_file_bytes.
Qed.

Lemma remove_file_bytes (universe uploaded_files : list UploadedFile)
    (file : UploadedFile) (w w' : World) (o : Outcome ()) :
  names_agree universe → file ∈ files w → bytes_inv universe w →
  remove_file uploaded_files file w = (o, w') → bytes_inv universe w'.
Proof.
  intros Hagree Hfile (Hnd & Hbytes & Hsub). rewrite remove_file_run.
  destruct (decide (file ∈ uploaded_files)); [by intros [= _ <-]|].
  cbn zeta. rewrite (Hbytes file Hfile).
  destruct (list_remove_is_Some file (files w) Hfile) as [fs Hrm]. rewrite Hrm.
  intros [= _ <-]. destruct (list_remove_NoDup _ _ _ Hnd Hrm) as [Hndfs Hfs].
  split; [|split]; cbn; [done| |].
  - intros f [Hf Hne]%Hfs. cbn. rewrite lookup_delete_ne; [by apply Hbytes|].
    intros Hpath. apply Hne. symmetry.
    apply (temp_filepath_agree universe); [done|by apply Hsub..|done].
  - intros x [Hx _]%Hfs. by apply Hsub.
Qed.

Lemma removal_loop_bytes (universe uploaded_files : list UploadedFile)
    (fuel i : nat) (w w' : World) (o : Outcome ()) :
  names_agree universe → bytes_inv universe w →
  removal_loop fuel uploaded_files i w = (o, w') → bytes_inv universe w'.
Proof.
  intros Hagree. revert i w.
  induction fuel as [|fuel IH]; intros i w Hinv; [by intros [= _ <-]|].
  cbn. rewrite bind_run. unfold get_world.
  destruct (files w !! i) as [file|] eqn:Hi; [|by intros [= _ <-]].
  rewrite bind_run.
  assert (file ∈ files w) as Hfile by (by eapply list_elem_of_lookup_2).
  destruct (remove_file uploaded_files file w) as [[[]|e] w1] eqn:Hrm.
  - apply IH. by eapply remove_file_bytes.
  - intros [= _ <-]. by eapply remove_file_bytes.
Qed.

(** X11. When the tracked files are distinct, each staged with its own
    bytes, and files with the same name are the same file, a reconcile
    cycle, however it ends, leaves the tracked files distinct and each
    staged with its own bytes: what [loader.load] reads at a file's path is
    that file's upload. *)
Theorem reconcile_keeps_staged_bytes (uploaded_files : list UploadedFile)
    (w w' : World) (o : Outcome ()) :
  NoDup (files w) → staged_bytes w →
  names_agree (files w ++ uploaded_files) →
  reconcile uploaded_files w = (o, w') →
  NoDup (files w') ∧ staged_bytes w'.
Proof.
  intros Hnd Hbytes Hagree. unfold reconcile, handle_removals. rewrite bind_run.
  assert (bytes_inv (files w ++ uploaded_files) w) as Hinv.
  { split; [done|]. split; [done|]. intros f Hf. apply elem_of_app. by left. }
  destruct (handle_uploads uploaded_files w) as [[[]|e] w1] eqn:Hup.
  - rewrite bind_run. unfold get_world. intros Hrm.
    eapply handle_uploads_bytes in Hup; [|done| |done].
    + by destruct (removal_loop_bytes _ _ _ _ _ _ _ Hagree Hup Hrm) as (? & ? & _).
    + intros f Hf. apply elem_of_app. by right.
  - intros [= _ <-]. eapply handle_uploads_bytes in Hup; [|done| |done].
    + by destruct Hup as (? & ? & _).
    + intros f Hf. apply elem_of_app. by right.
Qed.

(** X12. The removal loop ends by running past the end of the tracked
    list, never by using up the iterations it is given: with any number of
    iterations more it does the same. *)
Theorem removal_loop_ends_at_list_end (uploaded_files : list UploadedFile)
    (extra : nat) (w : World) :
  removal_loop (length (files w) + extra) uploaded_files 0 w =
  handle_removals uploaded_files w.
Proof. apply removal_loop_fuel; lia. Qed.

(** ** The chat turn *)

Lemma split_space_cons (res : string) :
  ∃ word words, split_space res = word :: words.
Proof.
  induction res as [|c res (word & words & IH)]; cbn; [by eexists _, _|].
  destruct (decide (c = " "%char)); [by eexists _, _|].
  rewrite IH. by eexists _, _.
Qed.

Lemma write_stream_stream_response (res : string) :
  write_stream (stream_response res) = res +:+ " ".
Proof.
  unfold write_stream, stream_response.
  induction res as [|c res IH]; cbn; [done|].
  destruct (decide (c = " "%char)) as [->|Hc]; cbn; [by rewrite IH|].
  destruct (split_space_cons res) as (word & words & Hsplit).
  rewrite Hsplit in *. cbn in *. exact (f_equal (String c) IH).
Qed.

Lemma handle_user_input_run (prompt : string) (w : World) :
  prompt ≠ EmptyString →
  handle_user_input (Some prompt) w =
  let asked := set_messages (messages w ++ [mkMessage "user" prompt]) w in
  match invoke (agent w) prompt asked with
  | (Returned output, answered) =>
      (Returned (),
       set_messages
         (messages answered ++ [mkMessage "assistant" (output +:+ " ")])
         answered)
  | (Raised e, failed) => (Raised e, failed)
  end.
Proof.
  intros Hprompt. destruct prompt as [|c prompt]; [done|].
  unfold handle_user_input. run_script.
  destruct (invoke _ _ _) as [[output|e] w1]; [|done].
  run_script. by rewrite write_stream_stream_response.
Qed.

(** X13. A chat turn with a non-empty prompt leaves the tracked files,
    the loader, the flag, the agent and the staged files as they were, and
    adds the executor's calls to the log.  The user's prompt goes to the
    transcript before the agent is invoked: when the executor returns an
    output, the transcript gains after it that output followed by one space
    (what the word stream adds up to); when it raises, the prompt stays in
    the transcript without a reply. *)
Theorem chat_turn_transcript (prompt : string) (w w' : World) (o : Outcome ()) :
  prompt ≠ EmptyString →
  handle_user_input (Some prompt) w = (o, w') →
  files w' = files w ∧ loader w' = loader w ∧ on_change w' = on_change w ∧
  agent w' = agent w ∧ tmp_files w' = tmp_files w ∧
  calls w' = (executor (agent w) (langchain_messages w) prompt).2 ++ calls w ∧
  match (executor (agent w) (langchain_messages w) prompt).1.1 with
  | Returned output =>
      o = Returned () ∧
      messages w' =
        messages w ++ [mkMessage "user" prompt;
                       mkMessage "assistant" (output +:+ " ")]
  | Raised e =>
      o = Raised e ∧ messages w' = messages w ++ [mkMessage "user" prompt]
  end.
Proof.
  intros Hprompt. rewrite (handle_user_input_run prompt w Hprompt).
  cbn zeta. unfold invoke. cbn [langchain_messages set_messages agent].
  destruct (executor (agent w) (langchain_messages w) prompt)
    as [[[output|e] memory] made]; intros [= <- <-]; cbn;
    repeat (split; [reflexivity|]).
  - by rewrite <-app_assoc.
  - reflexivity.
Qed.

(** ** The transcript is read by no block but the chat turn *)

Lemma upload_file_messages (ms : list Message) (file : UploadedFile) (w : World) :
  upload_file file (set_messages ms w) = with_messages ms (upload_file file w).
Proof.
  rewrite !upload_file_run. unfold with_messages.
  change (files (set_messages ms w)) with (files w).
  destruct (decide (file ∈ files w)); [done|].
  cbn zeta. destruct (parse_file _ _); reflexivity.
Qed.

Lemma remove_file_messages (ms : list Message)
    (uploaded_files : list UploadedFile) (file : UploadedFile) (w : World) :
  remove_file uploaded_files file (set_messages ms w) =
  with_messages ms (remove_file uploaded_files file w).
Proof.
  rewrite !remove_file_run. unfold with_messages.
  destruct (decide (file ∈ uploaded_files)); [done|]. cbn zeta.
  change (tmp_files (set_messages ms w)) with (tmp_files w).
  change (files (set_messages ms w)) with (files w).
  destruct (tmp_files w !! _); [|reflexivity].
  destruct (list_remove file (files w)); reflexivity.
Qed.

Lemma handle_uploads_messages (ms : list Message)
    (uploaded_files : list UploadedFile) (w : World) :
  handle_uploads uploaded_files (set_messages ms w) =
  with_messages ms (handle_uploads uploaded_files w).
Proof.
  revert w. induction uploaded_files as [|file rest IH]; intros w; [done|].
  cbn. rewrite !bind_run, upload_file_messages. unfold with_messages at 1.
  destruct (upload_file file w) as [[[]|e] w1]; cbn [fst snd]; [apply IH|done].
Qed.

Lemma removal_loop_messages (ms : list Message)
    (uploaded_files : list UploadedFile) (fuel i : nat) (w : World) :
  removal_loop fuel uploaded_files i (set_messages ms w) =
  with_messages ms (removal_loop fuel uploaded_files i w).
Proof.
  revert i w. induction fuel as [|fuel IH]; intros i w; [done|].
  cbn. rewrite !bind_run. unfold get_world.
  change (files (set_messages ms w)) with (files w).
  destruct (files w !! i) as [file|]; [|done].
  rewrite !bind_run, remove_file_messages. unfold with_messages at 1.
  destruct (remove_file uploaded_files file w) as [[[]|e] w1]; cbn [fst snd];
    [apply IH|done].
Qed.

Lemma synchronize_messages (ms : list Message)
    (uploaded_files : list UploadedFile) (w : World) :
  synchronize uploaded_files (set_messages ms w) =
  with_messages ms (synchronize uploaded_files w).
Proof.
  unfold synchronize, reconcile, handle_removals. rewrite !bind_run.
  rewrite handle_uploads_messages. unfold with_messages at 1.
  destruct (handle_uploads uploaded_files w) as [[[]|e] w1]; cbn [fst snd];
    [|done].
  rewrite !bind_run. unfold get_world.
  change (files (set_messages ms w1)) with (files w1).
  rewrite removal_loop_messages. unfold with_messages at 1.
  destruct (removal_loop _ _ _ w1) as [[[]|e] w2]; cbn [fst snd]; [|done].
  rewrite !rebuild_run.
  change (on_change (set_messages ms w2)) with (on_change w2).
  change (loader (set_messages ms w2)) with (loader w2).
  destruct (on_change w2); [|done].
  destruct (decide (0 < loader_size (loader w2))); [|done].
  cbn zeta. destruct (from_documents _); reflexivity.
Qed.

Lemma handle_user_input_messages (ms : list Message)
    (chat_input : option string) (w : World) :
  handle_user_input chat_input (set_messages ms w) =
  let r := handle_user_input chat_input (set_messages [] w) in
  (r.1, set_messages (ms ++ messages r.2) r.2).
Proof.
  destruct chat_input as [[|c prompt]|];
    [cbn; by rewrite app_nil_r| |cbn; by rewrite app_nil_r].
  rewrite !handle_user_input_run by done. cbn zeta. unfold invoke.
  cbn [langchain_messages set_messages agent].
  destruct (executor (agent w) (langchain_messages w) (String c prompt))
    as [[[output|e] memory] made]; cbn; by rewrite <-?app_assoc.
Qed.

Lemma set_messages_same (w : World) : set_messages (messages w) w = w.
Proof. by destruct w. Qed.

(** X14. Pressing Clear History changes one thing in a run of the script:
    the old transcript is gone.  The run ends the same way, with the same
    files, loader, flag, agent, memory and calls, and what it adds to the
    transcript is what it would have added to the old one. *)
Theorem clear_history_drops_old_transcript_only
    (uploaded_files : list UploadedFile) (chat_input : option string)
    (w cleared kept : World) (o1 o2 : Outcome ()) :
  script_run true uploaded_files chat_input w = (o1, cleared) →
  script_run false uploaded_files chat_input w = (o2, kept) →
  o1 = o2 ∧
  cleared = set_messages (messages cleared) kept ∧
  messages kept = messages w ++ messages cleared.
Proof.
  unfold script_run, handle_clear_history. rewrite !bind_run.
  unfold modify, mret, script_ret. rewrite !bind_run.
  rewrite synchronize_messages. unfold with_messages.
  destruct (synchronize uploaded_files w) as [[[]|e] w1] eqn:Hsync; cbn [fst snd].
  - pose proof (synchronize_one_embedding_messages w w1) as Hm.
    rewrite handle_user_input_messages. intros Hcleared Hkept.
    rewrite <-(set_messages_same w1), handle_user_input_messages in Hkept.
    cbn zeta in Hcleared, Hkept.
    destruct (handle_user_input chat_input (set_messages [] w1)) as [o0 w2].
    cbn [fst snd] in Hcleared, Hkept.
    injection Hcleared as <- <-. injection Hkept as <- <-.
    cbn. by rewrite (Hm _ _ Hsync).
  - intros [= <- <-] [= <- <-]. cbn.
    pose proof (synchronize_one_embedding_messages w w1) as Hm.
    by rewrite (Hm _ _ Hsync), app_nil_r.
Qed.

(** ** The pure helpers *)

(** X15. The pieces [stream_response] yields add up to the response
    followed by one space, and there is always a piece, one space alone for
    the empty response. *)
Theorem stream_response_adds_up (res : string) :
  write_stream (stream_response res) = res +:+ " " ∧
  stream_response res ≠ [] ∧
  stream_response EmptyString = [" "].
Proof.
  split; [apply write_stream_stream_response|]. split; [|done].
  unfold stream_response.
  destruct (split_space_cons res) as (word & words & ->). done.
Qed.

Lemma py_slice_to_prefix (n : nat) (s : string) :
  ∃ rest, s = py_slice_to n s +:+ rest ∧
          String.length (py_slice_to n s) = n `min` String.length s.
Proof.
  unfold py_slice_to. revert s.
  induction n as [|n IH]; intros [|c s]; cbn; try (by eexists).
  destruct (IH s) as (rest & Hs & Hlen). exists rest. split.
  - exact (f_equal (String c) Hs).
  - by rewrite Hlen.
Qed.

Lemma py_slice_to_short (n : nat) (s : string) :
  String.length s ≤ n → py_slice_to n s = s.
Proof.
  unfold py_slice_to. revert s.
  induction n as [|n IH]; intros [|c s]; cbn; intros Hlen; try done; [lia|].
  rewrite IH by lia. done.
Qed.

(** C8, amended. Every published agent, the initial one and the one of
    either branch of the rebuild, is created with the handler
    [str(error)[:50]]: given a parse error it yields the beginning of the
    error's text, all of it when it has at most 50 characters and its first
    50 otherwise.  The string goes to the executor, whose business it is
    what becomes of it. *)
Theorem published_handler_truncates (a : AgentExecutor)
    (error : OutputParserException) :
  published a →
  (∃ rest, str error = handle_parsing_errors a error +:+ rest) ∧
  String.length (handle_parsing_errors a error) =
    50 `min` String.length (str error) ∧
  String.length (handle_parsing_errors a error) ≤ 50 ∧
  (String.length (str error) ≤ 50 → handle_parsing_errors a error = str error).
Proof.
  intros Hpub. rewrite (published_handler a Hpub).
  unfold handle_parsing_errors_lambda.
  destruct (py_slice_to_prefix 50 (str error)) as (rest & Hs & Hlen).
  split; [by exists rest|]. split; [done|]. split; [lia|].
  apply py_slice_to_short.
Qed.

(** X16. The parse-error handler gives back a prefix of the error's text:
    the text itself when it has at most 50 characters, its first 50
    otherwise. *)
Theorem handler_output_is_prefix (error : OutputParserException) :
  (∃ rest, str error = handle_parsing_errors_lambda error +:+ rest) ∧
  String.length (handle_parsing_errors_lambda error) =
    50 `min` String.length (str error) ∧
  (String.length (str error) ≤ 50 →
     handle_parsing_errors_lambda error = str error).
Proof.
  unfold handle_parsing_errors_lambda.
  destruct (py_slice_to_prefix 50 (str error)) as (rest & Hs & Hlen).
  split; [by exists rest|]. split; [done|]. apply py_slice_to_short.
Qed.

(** X17. [name.split(".")[0]], the stem the tool's description names a file
    by, is the part of the name before its first dot: the name is the stem
    followed by nothing or by a dot and more, and the stem has no dot.  A
    name that starts with a dot has the empty stem. *)
Theorem split_dot_0_stem (s : string) :
  (∃ rest, s = split_dot_0 s +:+ rest ∧
           (rest = EmptyString ∨ ∃ r, rest = String "." r)) ∧
  (∀ a b, split_dot_0 s ≠ a +:+ String "." b) ∧
  (∀ r, split_dot_0 (String "." r) = EmptyString).
Proof.
  split; [|split; [|done]].
  - induction s as [|c s (rest & Hs & Hrest)]; cbn; [exists EmptyString; by split; [|left]|].
    destruct (decide (c = "."%char)) as [->|Hc].
    + exists (String "." s). split; [done|]. right. by exists s.
    + exists rest. split; [exact (f_equal (String c) Hs)|done].
  - induction s as [|c s IH]; cbn; intros a b.
    + by destruct a.
    + destruct (decide (c = "."%char)) as [->|Hc]; [by destruct a|].
      destruct a as [|c' a].
      * change (String c (split_dot_0 s) ≠ String "." b). congruence.
      * change (String c (split_dot_0 s) ≠ String c' (a +:+ String "." b)).
        intros [= -> Hstem]. by apply (IH a b).
Qed.

End Synchronizer.

(** ** The sample session, run *)

Abbreviation sample_start := (initial_world (VectorStore := list Document)).
Abbreviation sample_uploads := (handle_uploads (VectorStore := list Document) Sample.dir Sample.parse).
Abbreviation sample_reconcile := (reconcile (VectorStore := list Document) Sample.dir Sample.parse).
Abbreviation sample_rebuild := (rebuild Sample.split Sample.index).
Abbreviation sample_rebuild_down := (rebuild Sample.split Sample.index_down).
Abbreviation sample_synchronize :=
  (synchronize Sample.dir Sample.parse Sample.split Sample.index).
Abbreviation sample_reachable :=
  (reachable Sample.dir Sample.parse Sample.split Sample.index).

Import Sample.

Lemma names_agree_subseteq (fs gs : list UploadedFile) :
  fs ⊆ gs → names_agree gs → names_agree fs.
Proof. intros Hsub Hagree f g Hf Hg. apply Hagree; by apply Hsub. Qed.

Lemma sample_names_agree_3 : names_agree [a_txt; b_txt; c_txt].
Proof.
  intros f g Hf Hg Hname.
  repeat (apply elem_of_cons in Hf as [->|Hf]); [..|by apply elem_of_nil in Hf];
  repeat (apply elem_of_cons in Hg as [->|Hg]); try (by apply elem_of_nil in Hg);
  done.
Qed.

(** Membership in a list written out. *)
Ltac in_list :=
  repeat first [apply list_elem_of_here | apply list_elem_of_further].
Ltac each_member H :=
  repeat (apply elem_of_cons in H as [->|H]);
  [..|apply elem_of_nil in H; destruct H].


(** C1, as stated, fails: the parser rejects [corrupt.pdf], the cycle
    raises, and the file is tracked afterwards. *)
Lemma failed_load_is_tracked :
  ∃ w', sample_reconcile [corrupt_pdf] sample_start =
          (Raised (LoadError "/tmp/upload/corrupt.pdf"), w') ∧
        corrupt_pdf ∈ files w' ∧ loader w' = ∅.
Proof.
  eexists. split; [vm_compute; reflexivity|]. cbn. split; [|done].
  apply list_elem_of_singleton. reflexivity.
Qed.

Lemma failed_load_leaves_file_tracked_witness :
  ∃ w2, sample_uploads ([a_txt] ++ corrupt_pdf :: [b_txt]) sample_start =
          (Raised (LoadError "/tmp/upload/corrupt.pdf"), w2) ∧
    files w2 = [a_txt] ++ [corrupt_pdf] ∧
    corrupt_pdf ∈ files w2 ∧
    dom (loader w2) = {[ "/tmp/upload/a.txt" ]} ∧
    on_change w2 = true.
Proof.
  destruct (failed_load_leaves_file_tracked Sample.dir Sample.parse
              [a_txt] [b_txt] corrupt_pdf sample_start
              (snd (sample_uploads [a_txt] sample_start))
              (LoadError "/tmp/upload/corrupt.pdf"))
    as (w2 & Hrun & Hfiles & Hin & Hloader & Hflag & _).
  - vm_compute. reflexivity.
  - vm_compute. intros Hin. apply list_elem_of_singleton in Hin. discriminate.
  - reflexivity.
  - exists w2. rewrite Hloader, Hflag. repeat split; done.
Defined.

(** C2, evaluated where the code departs from it: [a.txt] and [b.txt] are
    tracked and the UI reports no file.  The removal loop removes [a.txt]
    at position 0, [b.txt] moves to position 0, and the iterator goes on to
    position 1, past the end: [b.txt] stays tracked, loaded and staged. *)
Example removal_loop_skips_next_file :
  ∃ w w',
    sample_synchronize [a_txt; b_txt] sample_start = (Returned (), w) ∧
    files w = [a_txt; b_txt] ∧
    sample_reconcile [] w = (Returned (), w') ∧
    files w' = [b_txt] ∧
    dom (loader w') = {[ "/tmp/upload/b.txt" ]} ∧
    dom (tmp_files w') = {[ "/tmp/upload/b.txt" ]}.
Proof.
  eexists _, _. split; [vm_compute; reflexivity|]. split; [reflexivity|].
  split; [vm_compute; reflexivity|]. cbn. split; [reflexivity|].
  split; vm_compute; reflexivity.
Qed.

(** C6, evaluated where the code departs from it: after the cycle above and
    its rebuild the flag is false; the same report, no file, run a second
    time removes [b.txt] from the tracked files, the loader and the staging
    directory, and sets the flag again. *)
Example second_reconcile_mutates :
  ∃ w w1 w2,
    sample_synchronize [a_txt; b_txt] sample_start = (Returned (), w) ∧
    sample_synchronize [] w = (Returned (), w1) ∧
    files w1 = [b_txt] ∧ on_change w1 = false ∧
    sample_reconcile [] w1 = (Returned (), w2) ∧
    files w2 = [] ∧ loader w2 = ∅ ∧ tmp_files w2 = ∅ ∧ on_change w2 = true.
Proof.
  eexists _, _, _. split; [vm_compute; reflexivity|].
  split; [vm_compute; reflexivity|]. split; [reflexivity|]. split; [reflexivity|].
  split; [vm_compute; reflexivity|]. cbn. repeat split; vm_compute; reflexivity.
Qed.

(** C3, as stated, fails: [empty.txt] parses to one document without text,
    so the loader holds one file and the splitter gives no chunk; the
    rebuild still calls the index builder with the empty chunk list, and
    here raises instead of storing a toolless agent. *)
Lemma zero_chunks_still_embedded :
  ∃ w w',
    sample_reconcile [empty_txt] sample_start = (Returned (), w) ∧
    on_change w = true ∧
    files w = [empty_txt] ∧
    loader_documents (loader w) = [mkDocument "" "/tmp/upload/empty.txt"] ∧
    Sample.split 1500 200 (loader_documents (loader w)) = [] ∧
    sample_rebuild [empty_txt] w = (Raised IndexError, w') ∧
    calls w' = [EmbedDocuments []].
Proof.
  eexists _, _. split; [vm_compute; reflexivity|]. split; [reflexivity|].
  split; [reflexivity|]. split; [vm_compute; reflexivity|].
  split; [vm_compute; reflexivity|]. split; [vm_compute; reflexivity|].
  reflexivity.
Qed.

Lemma rebuild_branches_on_loader_size_witness :
  let w := (sample_reconcile [a_txt] sample_start).2 in
  on_change w = true ∧ 0 < loader_size (loader w) ∧
  ∃ o w', sample_rebuild [a_txt] w = (o, w') ∧
    calls w' = [EmbedDocuments [mkDocument "a" "/tmp/upload/a.txt"]] ∧
    o = Returned () ∧ on_change w' = false ∧
    tools (agent w') =
      [create_vector_tool [a_txt] [mkDocument "a" "/tmp/upload/a.txt"]].
Proof.
  intros w. split; [reflexivity|].
  assert (0 < loader_size (loader w)) as Hsize by (vm_compute; lia).
  split; [exact Hsize|].
  destruct (rebuild_branches_on_loader_size Sample.split Sample.index
              [a_txt] w eq_refl) as [_ Hpos].
  destruct (Hpos Hsize) as (o & w' & Hrun & Hcalls & Hrest).
  exists o, w'. split; [exact Hrun|]. split; [exact Hcalls|]. exact Hrest.
Defined.



Lemma failed_rebuild_keeps_agent_witness :
  let w := (sample_reconcile [a_txt] sample_start).2 in
  let w' := (sample_rebuild_down [a_txt] w).2 in
  sample_rebuild_down [a_txt] w = (Raised EmbeddingError, w') ∧
  agent w' = agent w ∧ on_change w' = true ∧ tools (agent w') = [].
Proof.
  intros w w'.
  assert (sample_rebuild_down [a_txt] w = (Raised EmbeddingError, w')) as Hrun
    by (vm_compute; reflexivity).
  destruct (failed_rebuild_keeps_agent Sample.split Sample.index_down
              [a_txt] w w' EmbeddingError Hrun) as (Hagent & Hflag & _).
  split; [exact Hrun|]. split; [exact Hagent|]. split; [exact Hflag|].
  rewrite Hagent. reflexivity.
Defined.

Lemma clean_rebuild_is_noop_witness :
  let w := (sample_synchronize [a_txt] sample_start).2 in
  on_change w = false ∧ sample_rebuild [a_txt] w = (Returned (), w).
Proof.
  intros w. split; [reflexivity|].
  apply (clean_rebuild_is_noop Sample.split Sample.index [a_txt] w).
  reflexivity.
Defined.

Abbreviation sample_executor llm :=
  (λ (a : AgentExecutor (VectorStore := list Document)) (memory : list Message)
     (prompt : string),
     let r := Sample.steps (handle_parsing_errors a) (llm prompt) 15 [] in
     (Returned r.1,
      memory ++ [mkMessage "human" prompt; mkMessage "ai" r.1],
      replicate r.2 (LLMCall prompt))).

(** C8, as stated, fails.  The agent published after [a.txt] was uploaded
    has one tool and the handler; with an executor that hands the handler's
    text back to the LLM, a turn whose output never parses ends after 15
    LLM calls with the executor's own text, and a turn whose output parses
    at the second step ends with that output: neither is the error's first
    50 characters. *)
Lemma handler_text_is_not_turn_output :
  let w := (sample_synchronize [a_txt] sample_start).2 in
  let stopped := invoke (sample_executor never_parses) (agent w) "hi" w in
  let second := invoke (sample_executor parses_second) (agent w) "hi" w in
  length (tools (agent w)) = 1 ∧
  handle_parsing_errors (agent w) long_error =
    "Could not parse LLM output: `I do not know what to" ∧
  stopped.1 = Returned "Agent stopped due to iteration limit or time limit." ∧
  calls stopped.2 = replicate 15 (LLMCall "hi") ++ calls w ∧
  second.1 =
    Returned "After: Could not parse LLM output: `I do not know what to" ∧
  calls second.2 = replicate 2 (LLMCall "hi") ++ calls w.
Proof.
  intros w stopped second. split; [reflexivity|]. split; [reflexivity|].
  split; [reflexivity|]. split; [reflexivity|]. split; reflexivity.
Qed.

Lemma published_handler_truncates_witness :
  let w := (sample_reconcile [a_txt] sample_start).2 in
  let w' := (sample_rebuild [a_txt] w).2 in
  length (tools (agent w')) = 1 ∧
  (∃ rest, str long_error = handle_parsing_errors (agent w') long_error +:+ rest) ∧
  String.length (handle_parsing_errors (agent w') long_error) = 50.
Proof.
  intros w w'. split; [reflexivity|].
  destruct (published_handler_truncates Sample.split Sample.index (agent w')
              long_error) as (Hprefix & Hlen & _).
  - apply (published_rebuild Sample.split Sample.index [a_txt] w w').
    + reflexivity.
    + vm_compute. reflexivity.
  - split; [exact Hprefix|exact Hlen].
Defined.

(** The session after [a.txt], [b.txt] and [c.txt] were uploaded in one
    cycle. *)
Lemma sample_three_files :
  let w := (sample_synchronize [a_txt; b_txt; c_txt] sample_start).2 in
  files w = [a_txt; b_txt; c_txt] ∧
  in_sync Sample.dir Sample.parse w ∧ staged Sample.dir w.
Proof.
  intros w. split; [reflexivity|]. split.
  - apply (reachable_in_sync Sample.dir Sample.parse Sample.split Sample.index).
    apply (reachable_rerun Sample.dir Sample.parse Sample.split Sample.index
             [a_txt; b_txt; c_txt] sample_start
             (sample_reconcile [a_txt; b_txt; c_txt] sample_start).2
             (Returned ()) w).
    + apply reachable_initial.
    + exact sample_names_agree_3.
    + vm_compute. reflexivity.
    + vm_compute. reflexivity.
  - intros f Hf. change (files w) with [a_txt; b_txt; c_txt] in Hf.
    each_member Hf; vm_compute; eexists; reflexivity.
Qed.

Lemma handle_removals_survivors_witness :
  let w := (sample_synchronize [a_txt; b_txt; c_txt] sample_start).2 in
  ∃ w', handle_removals Sample.dir [] w = (Returned (), w') ∧ files w' = [b_txt].
Proof.
  intros w. destruct sample_three_files as (Hfiles & (Hnd & _) & Hstaged).
  destruct (handle_removals_survivors Sample.dir [] w)
    as (w' & Hrun & Hfiles' & _).
  - exact Hnd.
  - exact sample_names_agree_3.
  - exact Hstaged.
  - exists w'. split; [exact Hrun|]. rewrite Hfiles'. reflexivity.
Defined.

Lemma sample_report_names_agree :
  names_agree ([a_txt; b_txt; c_txt] ++ [a_txt; c_txt]).
Proof.
  apply (names_agree_subseteq _ [a_txt; b_txt; c_txt]); [|exact sample_names_agree_3].
  intros f Hf. cbn in Hf. each_member Hf; in_list.
Qed.

Lemma sample_report_parses (f : UploadedFile) :
  f ∈ [a_txt; c_txt] →
  ∃ docs, Sample.parse (temp_filepath Sample.dir f) (getvalue f) = Returned docs.
Proof. intros Hf. each_member Hf; eexists; reflexivity. Qed.

Lemma sample_report_isolated :
  isolated_removals [a_txt; c_txt] [a_txt; b_txt; c_txt].
Proof.
  intros [|[|[|i]]] f g Hf Hg Hdrop; cbn in Hf, Hg.
  - injection Hf as <-. exfalso. apply Hdrop. in_list.
  - injection Hg as <-. in_list.
  - inversion Hg.
  - inversion Hf.
Qed.

Lemma reconcile_tracks_report_witness :
  let w := (sample_synchronize [a_txt; b_txt; c_txt] sample_start).2 in
  ∃ w', sample_reconcile [a_txt; c_txt] w = (Returned (), w') ∧
        (∀ f, f ∈ files w' ↔ f ∈ [a_txt; c_txt]) ∧
        dom (loader w') = tracked_paths Sample.dir w'.
Proof.
  intros w. destruct sample_three_files as (Hfiles & Hsync & Hstaged).
  destruct (reconcile_tracks_report Sample.dir Sample.parse [a_txt; c_txt] w)
    as (w' & Hrun & Hreport & (_ & Hdom & _) & _).
  - exact Hsync.
  - exact Hstaged.
  - exact sample_report_names_agree.
  - exact sample_report_parses.
  - exact sample_report_isolated.
  - exists w'. split; [exact Hrun|]. split; [exact Hreport|exact Hdom].
Defined.

(** ** More of the sample session *)

Abbreviation sample_script :=
  (script_run Sample.dir Sample.parse Sample.split Sample.index
     (sample_executor replies)).
Abbreviation sample_three :=
  (sample_synchronize [a_txt; b_txt; c_txt] sample_start).2.

Lemma sample_same_members (f : UploadedFile) :
  f ∈ [a_txt; b_txt; c_txt] ↔ f ∈ [c_txt; b_txt; a_txt].
Proof. split; intros Hf; each_member Hf; in_list. Qed.

Lemma sample_three_staged_bytes : staged_bytes Sample.dir sample_three.
Proof.
  intros f Hf. change (files sample_three) with [a_txt; b_txt; c_txt] in Hf.
  each_member Hf; vm_compute; reflexivity.
Qed.

Lemma reconcile_makes_no_call_witness :
  let r := sample_reconcile [a_txt; corrupt_pdf] sample_start in
  r.1 = Raised (LoadError "/tmp/upload/corrupt.pdf") ∧
  calls r.2 = [] ∧ tools (agent r.2) = [].
Proof.
  intros r. split; [vm_compute; reflexivity|].
  destruct (reconcile_makes_no_call Sample.dir Sample.parse
              [a_txt; corrupt_pdf] sample_start r.2 r.1) as (Hc & Ha & _).
  - apply surjective_pairing.
  - split; [exact Hc|]. rewrite Ha. reflexivity.
Defined.

Lemma reconcile_changes_set_flag_witness :
  let r := sample_reconcile [a_txt] sample_start in
  r.1 = Returned () ∧ files r.2 = [a_txt] ∧ on_change r.2 = true.
Proof.
  intros r. split; [vm_compute; reflexivity|]. split; [reflexivity|].
  destruct (reconcile_changes_set_flag Sample.dir Sample.parse
              [a_txt] sample_start r.2 r.1) as [_ Hflag].
  - apply surjective_pairing.
  - destruct Hflag as [Hsame|Hflag]; [vm_compute; reflexivity| |exact Hflag].
    assert (files r.2 = files sample_start) as Hfiles by (rewrite Hsame; reflexivity).
    vm_compute in Hfiles. discriminate Hfiles.
Defined.

Lemma reconcile_matching_is_noop_witness :
  sample_reconcile [c_txt; b_txt; a_txt] sample_three = (Returned (), sample_three).
Proof.
  apply (reconcile_matching_is_noop Sample.dir Sample.parse).
  exact sample_same_members.
Defined.

Lemma steady_rerun_is_noop_witness :
  sample_script false [c_txt; b_txt; a_txt] None sample_three =
  (Returned (), sample_three).
Proof.
  apply (steady_rerun_is_noop Sample.dir Sample.parse Sample.split Sample.index).
  - exact sample_same_members.
  - reflexivity.
Defined.

Lemma synchronize_one_embedding_witness :
  let r := sample_synchronize [a_txt] sample_start in
  calls r.2 = [EmbedDocuments [mkDocument "a" "/tmp/upload/a.txt"]] ∧
  on_change r.2 = false.
Proof.
  intros r.
  destruct (synchronize_one_embedding Sample.dir Sample.parse Sample.split
              Sample.index [a_txt] sample_start r.2 r.1)
    as (_ & _ & _ & Hflag).
  - apply surjective_pairing.
  - split; [reflexivity|]. apply Hflag. vm_compute. reflexivity.
Defined.

Lemma rebuild_writes_agent_and_flag_only_witness :
  let w := (sample_reconcile [a_txt] sample_start).2 in
  let r := sample_rebuild_down [a_txt] w in
  r.1 = Raised EmbeddingError ∧ files r.2 = [a_txt] ∧ loader r.2 = loader w.
Proof.
  intros w r. split; [vm_compute; reflexivity|].
  destruct (rebuild_writes_agent_and_flag_only Sample.split Sample.index_down
              [a_txt] w r.2 r.1) as (Hf & Hl & _).
  - apply surjective_pairing.
  - split; [rewrite Hf; reflexivity|exact Hl].
Defined.

Lemma handle_removals_keeps_reported_witness :
  let r := handle_removals Sample.dir [b_txt] sample_three in
  b_txt ∈ files r.2 ∧ ∀ f, f ∈ files r.2 → f ∈ [a_txt; b_txt; c_txt].
Proof.
  intros r.
  destruct (handle_removals_keeps_reported Sample.dir [b_txt] sample_three
              r.2 r.1) as [Hkeep Hsub].
  - apply surjective_pairing.
  - split; [apply Hkeep; in_list|exact Hsub].
Defined.

Lemma handle_uploads_appends_witness :
  let r := sample_uploads [a_txt; a_txt; b_txt] sample_start in
  files r.2 = [a_txt; b_txt] ∧
  ∃ news, files r.2 = [] ++ news ∧ NoDup news.
Proof.
  intros r. split; [reflexivity|].
  destruct (handle_uploads_appends Sample.dir Sample.parse
              [a_txt; a_txt; b_txt] sample_start r.2 r.1)
    as (news & Hfiles & Hnd & _).
  - apply surjective_pairing.
  - exists news. split; [exact Hfiles|exact Hnd].
Defined.

Lemma reconcile_keeps_staged_bytes_witness :
  let r := sample_reconcile [b_txt] sample_three in
  files r.2 = [b_txt] ∧ staged_bytes Sample.dir r.2.
Proof.
  intros r. split; [reflexivity|].
  destruct sample_three_files as (_ & (Hnd & _) & _).
  destruct (reconcile_keeps_staged_bytes Sample.dir Sample.parse [b_txt]
              sample_three r.2 r.1) as [_ Hbytes].
  - exact Hnd.
  - exact sample_three_staged_bytes.
  - apply (names_agree_subseteq _ [a_txt; b_txt; c_txt]); [|exact sample_names_agree_3].
    intros f Hf. change (f ∈ [a_txt; b_txt; c_txt; b_txt]) in Hf.
    clear Hnd. each_member Hf; in_list.
  - apply surjective_pairing.
  - exact Hbytes.
Defined.

Lemma chat_turn_transcript_witness :
  let r := handle_user_input (sample_executor replies) (Some "hi") sample_start in
  r.1 = Returned () ∧
  messages r.2 =
    [] ++ [mkMessage "user" "hi"; mkMessage "assistant" "You said hi "] ∧
  calls r.2 = [LLMCall "hi"].
Proof.
  intros r.
  destruct (chat_turn_transcript (sample_executor replies) "hi" sample_start
              r.2 r.1) as (_ & _ & _ & _ & _ & Hcalls & Ho & Hmessages).
  - discriminate.
  - apply surjective_pairing.
  - split; [exact Ho|]. split; [exact Hmessages|exact Hcalls].
Defined.

Lemma clear_history_drops_old_transcript_only_witness :
  let w := (sample_script false [] (Some "hello") sample_start).2 in
  let cleared := sample_script true [a_txt] (Some "hi") w in
  let kept := sample_script false [a_txt] (Some "hi") w in
  length (messages w) = 2 ∧ length (messages cleared.2) = 2 ∧
  cleared.1 = kept.1 ∧
  messages kept.2 = messages w ++ messages cleared.2.
Proof.
  intros w cleared kept. split; [reflexivity|]. split; [reflexivity|].
  destruct (clear_history_drops_old_transcript_only Sample.dir Sample.parse
              Sample.split Sample.index (sample_executor replies) [a_txt]
              (Some "hi") w
              cleared.2 kept.2 cleared.1 kept.1) as (Ho & _ & Hm).
  - apply surjective_pairing.
  - apply surjective_pairing.
  - split; [exact Ho|exact Hm].
Defined.
